(** * Thomas attractor "Flower Index": a shallow embedding of the Python sources

    Two source files are embedded:

    - [thomas_flower_interface.py] (module [Interface] below): the Flower
      Index combiner, the configuration record, the CSV loader, the JSON
      export and the CSV enrichment;
    - [thomas-flower.py] (module [Script] below): the numerical script
      (Thomas ODE, rhodonea fit, crude Lyapunov estimate).

    Numbers.  IEEE doubles are idealised: a Python float is either the
    not-a-number value or an exact real (type [pyfloat]); rounding, overflow
    and the two infinities are not modelled.  Everything that the sources
    decide by a test ([is None], [< 0], [d > 0], [n > 0], [pd.isna]) or by
    an exception ([try/except]) is kept.  Where the size of a result matters
    and not only its formula (the range of the Flower Index), a second
    embedding of [flower_index] adds the underflow of doubles to zero. *)

From Stdlib Require Import Reals Lra Lia ZArith List String Bool.
Import ListNotations.

Set Warnings "-register-all".

Open Scope R_scope.

(** * The model *)

(** ** Python exceptions and fallible computations *)

Inductive exn : Type :=
| TypeError
| ValueError
| KeyError
| IndexError
| ZeroDivisionError
| FileNotFoundError
| RuntimeError.

Inductive exc (A : Type) : Type :=
| Ok (a : A)
| Raise (e : exn).

Arguments Ok {A} a.
Arguments Raise {A} e.

Definition bind {A B : Type} (m : exc A) (k : A -> exc B) : exc B :=
  match m with
  | Ok a => k a
  | Raise e => Raise e
  end.

Notation "x <- m ;; k" := (bind m (fun x => k))
  (at level 61, m at next level, right associativity).

(** [try: m except Exception: h] *)
Definition try_except {A : Type} (m : exc A) (h : exn -> A) : A :=
  match m with
  | Ok a => a
  | Raise e => h e
  end.

(** ** Python floats *)

Inductive pyfloat : Type :=
| NaN
| Fin (r : R).

Definition lift1 (f : R -> R) (a : pyfloat) : pyfloat :=
  match a with
  | Fin x => Fin (f x)
  | NaN => NaN
  end.

Definition lift2 (f : R -> R -> R) (a b : pyfloat) : pyfloat :=
  match a, b with
  | Fin x, Fin y => Fin (f x y)
  | _, _ => NaN
  end.

Definition py_add : pyfloat -> pyfloat -> pyfloat := lift2 Rplus.
Definition py_sub : pyfloat -> pyfloat -> pyfloat := lift2 Rminus.
Definition py_mul : pyfloat -> pyfloat -> pyfloat := lift2 Rmult.
Definition py_neg : pyfloat -> pyfloat := lift1 Ropp.
Definition py_abs : pyfloat -> pyfloat := lift1 Rabs.
Definition math_exp : pyfloat -> pyfloat := lift1 exp.
Definition math_cos : pyfloat -> pyfloat := lift1 cos.




(** [a / b] on Python floats: a zero divisor raises, whatever the dividend. *)
Definition py_div (a b : pyfloat) : exc pyfloat :=
  match b with
  | NaN => Ok NaN
  | Fin y =>
      if Req_dec_T y 0 then Raise ZeroDivisionError
      else Ok (lift1 (fun x => x / y) a)
  end.

(** [a < b]: every comparison with not-a-number is false. *)
Definition py_lt (a b : pyfloat) : bool :=
  match a, b with
  | Fin x, Fin y => if Rlt_dec x y then true else false
  | _, _ => false
  end.

(** Elementwise combination of two columns or arrays of equal length. *)
Fixpoint zip_with {A B C : Type} (f : A -> B -> C) (la : list A) (lb : list B)
  : list C :=
  match la, lb with
  | a :: la', b :: lb' => f a b :: zip_with f la' lb'
  | _, _ => []
  end.

(** [int(x)] on a float truncates toward zero. *)
Definition trunc (r : R) : Z :=
  if Rle_dec 0 r then Int_part r else (- Int_part (- r))%Z.

Module Interface.

(** ** [flower_index]

<<
    try:
        if E_flower is None or lambda_max is None:
            return float("nan")
        if E_flower < 0 or lambda_max < 0:
            return float("nan")
        return (1.0 / (1.0 + E_flower)) * math.exp(-lambda_max)
    except Exception:
        return float("nan")
>>
    The arguments are [Optional[float]]: [None] is Python's [None]. *)
Definition flower_index (E_flower lambda_max : option pyfloat) : pyfloat :=
  try_except
    (match E_flower, lambda_max with
     | None, _ => Ok NaN
     | _, None => Ok NaN
     | Some E, Some L =>
         if py_lt E (Fin 0) || py_lt L (Fin 0) then Ok NaN
         else
           q <- py_div (Fin 1) (py_add (Fin 1) E) ;;
           Ok (py_mul q (math_exp (py_neg L)))
     end)
    (fun _ => NaN).


(** A metric that is absent, or present and negative. *)
Definition missing_or_negative (v : option pyfloat) : Prop :=
  v = None \/ exists r, v = Some (Fin r) /\ r < 0.

(** ** [ThomasFlowerConfig] *)

Record ThomasFlowerConfig : Type := {
  id : string;
  description : string;
  b : pyfloat;
  dt : pyfloat;
  steps : Z;
  transient_steps : Z;
  seed_x : pyfloat;
  seed_y : pyfloat;
  seed_z : pyfloat;
  projection_plane : string;
  rotation_axis : string;
  rotation_angle_rad : pyfloat;
  rhodonea_k : pyfloat;
  rhodonea_m : pyfloat;
  rhodonea_phi : pyfloat;
  rhodonea_a : pyfloat;
  E_flower : option pyfloat;
  lambda_max : option pyfloat;
  FI_reported : option pyfloat;
  notes : string
}.

(** [seed]: [[self.seed_x, self.seed_y, self.seed_z]] *)
Definition seed (self : ThomasFlowerConfig) : list pyfloat :=
  [seed_x self; seed_y self; seed_z self].

Definition compute_fi (self : ThomasFlowerConfig) : pyfloat :=
  flower_index (E_flower self) (lambda_max self).

(** [rhodonea_r]:
    [self.rhodonea_a * math.cos(self.rhodonea_k * self.rhodonea_m * theta + self.rhodonea_phi)] *)
Definition rhodonea_r (self : ThomasFlowerConfig) (theta : pyfloat) : pyfloat :=
  py_mul (rhodonea_a self)
    (math_cos
       (py_add (py_mul (py_mul (rhodonea_k self) (rhodonea_m self)) theta)
               (rhodonea_phi self))).

(** ** JSON-serialisable values (Python dicts keep insertion order) *)

Inductive json : Type :=
| JNull
| JStr (s : string)
| JInt (z : Z)
| JFloat (f : pyfloat)
| JList (items : list json)
| JDict (fields : list (string * json)).

Definition json_of_optional (v : option pyfloat) : json :=
  match v with
  | None => JNull
  | Some f => JFloat f
  end.

(** [to_js_config] *)
Definition to_js_config (self : ThomasFlowerConfig) : json :=
  JDict
    [ ("id", JStr (id self));
      ("description", JStr (description self));
      ("model",
        JDict
          [ ("b", JFloat (b self));
            ("dt", JFloat (dt self));
            ("steps", JInt (steps self));
            ("transient_steps", JInt (transient_steps self));
            ("seed", JList (map JFloat (seed self))) ]);
      ("projection",
        JDict
          [ ("plane", JStr (projection_plane self));
            ("rotation",
              JDict
                [ ("axis", JStr (rotation_axis self));
                  ("angle_rad", JFloat (rotation_angle_rad self)) ]) ]);
      ("rhodonea",
        JDict
          [ ("k", JFloat (rhodonea_k self));
            ("m", JFloat (rhodonea_m self));
            ("phi", JFloat (rhodonea_phi self));
            ("a", JFloat (rhodonea_a self));
            ("formula", JStr "r(theta) = a * cos(k*m*theta + phi)") ]);
      ("metrics",
        JDict
          [ ("E_flower", json_of_optional (E_flower self));
            ("lambda_max", json_of_optional (lambda_max self));
            ("FI_computed", JFloat (compute_fi self));
            ("FI_reported", json_of_optional (FI_reported self)) ]);
      ("notes", JStr (notes self)) ]%string.

(** [export_js_config]: the payload handed to [json.dump]; the write to
    [out_path] itself is not modelled. *)
Definition export_js_config (configs : list ThomasFlowerConfig) : json :=
  JList (map to_js_config configs).

(** Field names and nesting of a JSON value: what a client that walks the
    document by key depends on. *)
Inductive shape : Type :=
| Leaf
| Arr (len : nat)
| Obj (fields : list (string * shape)).

Fixpoint shape_of (j : json) : shape :=
  match j with
  | JDict fields => Obj (map (fun kv => (fst kv, shape_of (snd kv))) fields)
  | JList items => Arr (List.length items)
  | _ => Leaf
  end.

(** [d[key]] on a JSON object. *)
Fixpoint assoc {A : Type} (key : string) (l : list (string * A)) : option A :=
  match l with
  | [] => None
  | (k, v) :: rest => if String.eqb k key then Some v else assoc key rest
  end.

Definition json_get (key : string) (j : json) : option json :=
  match j with
  | JDict fields => assoc key fields
  | _ => None
  end.

(** [doc[k1][k2]] *)
Definition json_get2 (k1 k2 : string) (doc : json) : option json :=
  match json_get k1 doc with
  | Some inner => json_get k2 inner
  | None => None
  end.

(** The schema of one exported record. *)
Definition js_config_schema : shape :=
  Obj
    [ ("id", Leaf);
      ("description", Leaf);
      ("model",
        Obj [ ("b", Leaf); ("dt", Leaf); ("steps", Leaf);
              ("transient_steps", Leaf); ("seed", Arr 3) ]);
      ("projection",
        Obj [ ("plane", Leaf);
              ("rotation", Obj [ ("axis", Leaf); ("angle_rad", Leaf) ]) ]);
      ("rhodonea",
        Obj [ ("k", Leaf); ("m", Leaf); ("phi", Leaf); ("a", Leaf);
              ("formula", Leaf) ]);
      ("metrics",
        Obj [ ("E_flower", Leaf); ("lambda_max", Leaf);
              ("FI_computed", Leaf); ("FI_reported", Leaf) ]);
      ("notes", Leaf) ]%string.

(** ** Tables as pandas hands them over

    A cell of a frame read by [pd.read_csv] is a float (not-a-number for an
    empty field), an integer or a string. *)

Inductive cell : Type :=
| CFloat (f : pyfloat)
| CInt (z : Z)
| CStr (s : string).

Record DataFrame : Type := {
  columns : list string;
  data : list (list cell)
}.

(** A row as [iterrows] and [apply(axis=1)] present it: labelled cells. *)
Definition Row : Type := list (string * cell).

Definition iterrows (df : DataFrame) : list Row :=
  map (combine (columns df)) (data df).

(** [row.get(key)]: [None] when the label is absent. *)
Definition row_get (row : Row) (key : string) : option cell := assoc key row.

(** [row.get(key, default)] *)
Definition row_get_default (row : Row) (key : string) (default : cell) : option cell :=
  match assoc key row with
  | Some c => Some c
  | None => Some default
  end.

(** [row[key]]: [KeyError] when the label is absent. *)
Definition row_getitem (row : Row) (key : string) : exc cell :=
  match assoc key row with
  | Some c => Ok c
  | None => Raise KeyError
  end.

(** The CSV files a run can see, by path. *)
Definition store : Type := string -> option DataFrame.

Definition read_csv (fs : store) (path : string) : exc DataFrame :=
  match fs path with
  | Some df => Ok df
  | None => Raise FileNotFoundError
  end.

(** [df.to_csv(path, index=False)] *)
Definition to_csv (fs : store) (path : string) (df : DataFrame) : store :=
  fun p => if String.eqb p path then Some df else fs p.

(** The fields [load_configs] converts with [float], with [int], and the
    optional metrics; the five remaining fields go through [str]. *)
Definition float_fields : list string :=
  [ "b"; "dt"; "seed_x"; "seed_y"; "seed_z"; "rotation_angle_rad";
    "rhodonea_k"; "rhodonea_m"; "rhodonea_phi"; "rhodonea_a" ]%string.
Definition int_fields : list string := [ "steps"; "transient_steps" ]%string.
Definition optional_fields : list string :=
  [ "E_flower"; "lambda_max"; "FI_reported" ]%string.

Definition succeeds {A : Type} (m : exc A) : bool :=
  match m with
  | Ok _ => true
  | Raise _ => false
  end.

Section Builtins.

(** The text conversions of Python's built-ins, left abstract: parsing a
    string as a float or an int (each may raise [ValueError]), and printing
    a float or an int. *)
Variable float_of_str : string -> exc pyfloat.
Variable int_of_str : string -> exc Z.
Variable str_of_float : pyfloat -> string.
Variable str_of_int : Z -> string.

(** [float(x)] *)
Definition py_float (x : option cell) : exc pyfloat :=
  match x with
  | None => Raise TypeError
  | Some (CFloat f) => Ok f
  | Some (CInt z) => Ok (Fin (IZR z))
  | Some (CStr s) => float_of_str s
  end.

(** [int(x)] *)
Definition py_int (x : option cell) : exc Z :=
  match x with
  | None => Raise TypeError
  | Some (CFloat NaN) => Raise ValueError
  | Some (CFloat (Fin r)) => Ok (trunc r)
  | Some (CInt z) => Ok z
  | Some (CStr s) => int_of_str s
  end.

(** [str(x)] *)
Definition py_str (x : option cell) : string :=
  match x with
  | None => "None"
  | Some (CFloat f) => str_of_float f
  | Some (CInt z) => str_of_int z
  | Some (CStr s) => s
  end.

(** [pd.isna(x)] *)
Definition pd_isna (x : option cell) : bool :=
  match x with
  | None => true
  | Some (CFloat NaN) => true
  | Some _ => false
  end.

(** [float(x) if not pd.isna(x) else None] *)
Definition optional_float (x : option cell) : exc (option pyfloat) :=
  if negb (pd_isna x) then f <- py_float x ;; Ok (Some f) else Ok None.

(** The constructor call in the body of the loop of [load_configs]: the
    keyword arguments are evaluated in the order written. *)
Definition row_to_config (row : Row) : exc ThomasFlowerConfig :=
  let id_ := py_str (row_get row "id") in
  let description_ := py_str (row_get_default row "description" (CStr EmptyString)) in
  b_ <- py_float (row_get row "b") ;;
  dt_ <- py_float (row_get row "dt") ;;
  steps_ <- py_int (row_get row "steps") ;;
  transient_steps_ <- py_int (row_get row "transient_steps") ;;
  seed_x_ <- py_float (row_get row "seed_x") ;;
  seed_y_ <- py_float (row_get row "seed_y") ;;
  seed_z_ <- py_float (row_get row "seed_z") ;;
  let projection_plane_ := py_str (row_get row "projection_plane") in
  let rotation_axis_ := py_str (row_get row "rotation_axis") in
  rotation_angle_rad_ <- py_float (row_get row "rotation_angle_rad") ;;
  rhodonea_k_ <- py_float (row_get row "rhodonea_k") ;;
  rhodonea_m_ <- py_float (row_get row "rhodonea_m") ;;
  rhodonea_phi_ <- py_float (row_get row "rhodonea_phi") ;;
  rhodonea_a_ <- py_float (row_get row "rhodonea_a") ;;
  E_flower_ <- optional_float (row_get row "E_flower") ;;
  lambda_max_ <- optional_float (row_get row "lambda_max") ;;
  FI_reported_ <- optional_float (row_get row "FI_reported") ;;
  let notes_ := py_str (row_get_default row "notes" (CStr EmptyString)) in
  Ok {| id := id_; description := description_; b := b_; dt := dt_;
        steps := steps_; transient_steps := transient_steps_;
        seed_x := seed_x_; seed_y := seed_y_; seed_z := seed_z_;
        projection_plane := projection_plane_; rotation_axis := rotation_axis_;
        rotation_angle_rad := rotation_angle_rad_;
        rhodonea_k := rhodonea_k_; rhodonea_m := rhodonea_m_;
        rhodonea_phi := rhodonea_phi_; rhodonea_a := rhodonea_a_;
        E_flower := E_flower_; lambda_max := lambda_max_;
        FI_reported := FI_reported_; notes := notes_ |}.

(** A row converts when none of its fifteen conversions raises. *)
Definition row_converts (row : Row) : bool :=
  forallb (fun key => succeeds (py_float (row_get row key))) float_fields
  && forallb (fun key => succeeds (py_int (row_get row key))) int_fields
  && forallb (fun key => succeeds (optional_float (row_get row key)))
       optional_fields.

(** The [for] loop of [load_configs]: [configs] is the list built so far;
    nothing in the loop catches an exception. *)
Fixpoint load_rows (rows : list Row) (configs : list ThomasFlowerConfig)
  : exc (list ThomasFlowerConfig) :=
  match rows with
  | [] => Ok configs
  | row :: rest =>
      cfg <- row_to_config row ;;
      load_rows rest (configs ++ [cfg])
  end.

Definition load_configs (fs : store) (csv_path : string)
  : exc (list ThomasFlowerConfig) :=
  df <- read_csv fs csv_path ;;
  load_rows (iterrows df) [].

(** ** [enrich_csv_with_fi] *)

(** [_fi(row)] *)
Definition _fi (row : Row) : pyfloat :=
  try_except
    (cE <- row_getitem row "E_flower" ;;
     E <- py_float (Some cE) ;;
     cL <- row_getitem row "lambda_max" ;;
     L <- py_float (Some cL) ;;
     Ok (flower_index (Some E) (Some L)))
    (fun _ => NaN).

(** [_delta(row)] *)
Definition _delta (row : Row) : pyfloat :=
  try_except
    (cr <- row_getitem row "FI_reported" ;;
     r <- py_float (Some cr) ;;
     cc <- row_getitem row "FI_computed" ;;
     c <- py_float (Some cc) ;;
     Ok (py_abs (py_sub r c)))
    (fun _ => NaN).

(** [df.apply(f, axis=1)]: one value per row. *)
Definition apply_rows (f : Row -> pyfloat) (df : DataFrame) : list pyfloat :=
  map f (iterrows df).

Fixpoint index_of (key : string) (l : list string) : option nat :=
  match l with
  | [] => None
  | k :: rest =>
      if String.eqb k key then Some O
      else option_map S (index_of key rest)
  end.

Fixpoint replace_nth {A : Type} (i : nat) (v : A) (l : list A) : list A :=
  match l, i with
  | [], _ => []
  | _ :: rest, O => v :: rest
  | x :: rest, S i' => x :: replace_nth i' v rest
  end.

(** [df[key] = values]: an existing column is overwritten in place, a new one
    is appended on the right. *)
Definition set_column (df : DataFrame) (key : string) (values : list pyfloat)
  : DataFrame :=
  match index_of key (columns df) with
  | Some i =>
      {| columns := columns df;
         data := zip_with (fun row v => replace_nth i (CFloat v) row) (data df) values |}
  | None =>
      {| columns := columns df ++ [key];
         data := zip_with (fun row v => row ++ [CFloat v]) (data df) values |}
  end.

Definition enrich_frame (df : DataFrame) : DataFrame :=
  let df1 := set_column df "FI_computed" (apply_rows _fi df) in
  set_column df1 "FI_delta" (apply_rows _delta df1).

Definition enrich_csv_with_fi (fs : store) (csv_in csv_out : string) : exc store :=
  df <- read_csv fs csv_in ;;
  Ok (to_csv fs csv_out (enrich_frame df)).

(** *** What the enriched table holds, per row *)

(** FI_delta as the enriched table defines it: |FI_reported - FI_computed|,
    not-a-number when FI_reported cannot be read as a float. *)
Definition delta_of (reported : option cell) (computed : pyfloat) : pyfloat :=
  match reported with
  | None => NaN
  | Some c =>
      match py_float (Some c) with
      | Ok r => py_abs (py_sub r computed)
      | Raise _ => NaN
      end
  end.

(** The two cells enrichment appends to a row. *)
Definition fi_cell (cols : list string) (cells : list cell) : pyfloat :=
  _fi (combine cols cells).

Definition delta_cell (cols : list string) (cells : list cell) : pyfloat :=
  delta_of (row_get (combine cols cells) "FI_reported") (fi_cell cols cells).

End Builtins.

(** Every row has one cell per column, as in any frame [read_csv] returns. *)
Definition aligned (df : DataFrame) : Prop :=
  Forall (fun cells => List.length cells = List.length (columns df)) (data df).

(** ** Records and tables used as examples *)

(** A configuration in the layout of the CSV schema. *)
Definition sample_config (k m phi a : R) : ThomasFlowerConfig :=
  {| id := "cfg"; description := "sample"; b := Fin 0.19; dt := Fin 0.01;
     steps := 1000; transient_steps := 100;
     seed_x := Fin 1; seed_y := Fin 1; seed_z := Fin 1;
     projection_plane := "xy"; rotation_axis := "z";
     rotation_angle_rad := Fin 0;
     rhodonea_k := Fin k; rhodonea_m := Fin m;
     rhodonea_phi := Fin phi; rhodonea_a := Fin a;
     E_flower := Some (Fin 0); lambda_max := Some (Fin 0);
     FI_reported := None; notes := EmptyString |}.

Definition csv_columns : list string :=
  [ "id"; "description"; "b"; "dt"; "steps"; "transient_steps";
    "seed_x"; "seed_y"; "seed_z"; "projection_plane"; "rotation_axis";
    "rotation_angle_rad"; "rhodonea_k"; "rhodonea_m"; "rhodonea_phi";
    "rhodonea_a"; "E_flower"; "lambda_max"; "FI_reported"; "notes" ]%string.

(** A well-formed record; [steps] is a float because the column holds an
    empty field further down. *)
Definition good_cells : list cell :=
  [ CStr "A"; CStr "first"; CFloat (Fin 0.19); CFloat (Fin 0.01);
    CFloat (Fin 1000); CInt 100;
    CFloat (Fin 1); CFloat (Fin 1); CFloat (Fin 1); CStr "xy"; CStr "z";
    CFloat (Fin 0); CFloat (Fin 2); CFloat (Fin 5); CFloat (Fin 0);
    CFloat (Fin 1); CFloat (Fin 0); CFloat (Fin 0); CFloat NaN; CStr "ok" ].

(** The same record with the required field [steps] left empty. *)
Definition bad_cells : list cell :=
  [ CStr "B"; CStr "second"; CFloat (Fin 0.19); CFloat (Fin 0.01);
    CFloat NaN; CInt 100;
    CFloat (Fin 1); CFloat (Fin 1); CFloat (Fin 1); CStr "xy"; CStr "z";
    CFloat (Fin 0); CFloat (Fin 2); CFloat (Fin 5); CFloat (Fin 0);
    CFloat (Fin 1); CFloat (Fin 0); CFloat (Fin 0); CFloat NaN; CStr "ok" ].

Definition good_config : ThomasFlowerConfig :=
  {| id := "A"; description := "first"; b := Fin 0.19; dt := Fin 0.01;
     steps := 1000; transient_steps := 100;
     seed_x := Fin 1; seed_y := Fin 1; seed_z := Fin 1;
     projection_plane := "xy"; rotation_axis := "z";
     rotation_angle_rad := Fin 0;
     rhodonea_k := Fin 2; rhodonea_m := Fin 5;
     rhodonea_phi := Fin 0; rhodonea_a := Fin 1;
     E_flower := Some (Fin 0); lambda_max := Some (Fin 0);
     FI_reported := None; notes := "ok" |}.

(** A well-formed record whose optional E_flower field is empty. *)
Definition sparse_cells : list cell :=
  [ CStr "C"; CStr "third"; CFloat (Fin 0.19); CFloat (Fin 0.01);
    CInt 1000; CInt 100;
    CFloat (Fin 1); CFloat (Fin 1); CFloat (Fin 1); CStr "xy"; CStr "z";
    CFloat (Fin 0); CFloat (Fin 2); CFloat (Fin 5); CFloat (Fin 0);
    CFloat (Fin 1); CFloat NaN; CFloat (Fin 0); CFloat NaN; CStr "ok" ].

Definition sparse_config : ThomasFlowerConfig :=
  {| id := "C"; description := "third"; b := Fin 0.19; dt := Fin 0.01;
     steps := 1000; transient_steps := 100;
     seed_x := Fin 1; seed_y := Fin 1; seed_z := Fin 1;
     projection_plane := "xy"; rotation_axis := "z";
     rotation_angle_rad := Fin 0;
     rhodonea_k := Fin 2; rhodonea_m := Fin 5;
     rhodonea_phi := Fin 0; rhodonea_a := Fin 1;
     E_flower := None; lambda_max := Some (Fin 0);
     FI_reported := None; notes := "ok" |}.

Definition one_bad_row : DataFrame :=
  {| columns := csv_columns; data := [good_cells; bad_cells] |}.

Definition params_store : store :=
  fun p => if String.eqb p "params.csv"%string then Some one_bad_row else None.

(** A table that already has a column named FI_computed. *)
Definition already_enriched : DataFrame :=
  {| columns := ["E_flower"; "lambda_max"; "FI_reported"; "FI_computed"]%string;
     data := [[CFloat (Fin 0); CFloat (Fin 0); CFloat (Fin 1); CFloat (Fin 0.5)]] |}.

Definition plain_table : DataFrame :=
  {| columns := ["E_flower"; "lambda_max"; "FI_reported"]%string;
     data := [[CFloat (Fin 0); CFloat (Fin 0); CFloat (Fin 1)]] |}.

Definition one_file (df : DataFrame) : store :=
  fun p => if String.eqb p "params.csv" then Some df else None.

(** ** [main]

    [args] is what [parser.parse_args()] returns: [--csv] is required, the
    two outputs default to [None]. *)
Record Namespace : Type := {
  csv : string;
  json_out : option string;
  csv_out : option string
}.

(** [if args.csv_out:] and [if args.json_out:]: [None] and the empty string
    are both false. *)
Definition given (arg : option string) : option string :=
  match arg with
  | Some path => if String.eqb path EmptyString then None else Some path
  | None => None
  end.

(** What a run leaves behind: the tables on disk, and the document handed to
    [json.dump] with its path (written after the table). *)
Record Effects : Type := {
  files : store;
  dumped : option (string * json)
}.

Section Cli.

Variable float_of_str : string -> exc pyfloat.
Variable int_of_str : string -> exc Z.
Variable str_of_float : pyfloat -> string.
Variable str_of_int : Z -> string.

Definition main (args : Namespace) (fs : store) : exc Effects :=
  configs <-
    load_configs float_of_str int_of_str str_of_float str_of_int fs (csv args) ;;
  fs1 <-
    match given (csv_out args) with
    | Some path => enrich_csv_with_fi float_of_str fs (csv args) path
    | None => Ok fs
    end ;;
  Ok {| files := fs1;
        dumped :=
          match given (json_out args) with
          | Some path => Some (path, export_js_config configs)
          | None => None
          end |}.

End Cli.

End Interface.

Module Scipy.

(** The result object of [scipy.integrate.solve_ivp]: the sample times
    reached, the state at those times (one row per coordinate), and the
    solver's verdict ([status] is -1 and [success] is false when a step
    failed; [t] and [y] then stop at the last time reached). *)
Record OdeResult : Type := {
  t : list R;
  y : list R * list R * list R;
  status : Z;
  success : bool
}.

End Scipy.

Module Script.

Definition state : Type := (R * R * R)%type.

(** [thomas(t, state, b)] *)
Definition thomas (t : R) (st : state) (b : R) : state :=
  let '(x, y, z) := st in
  (sin y - b * x, sin z - b * y, sin x - b * z).

(** [np.linspace(start, stop, num)], in exact arithmetic. *)
Definition linspace (start stop : R) (num : nat) : list R :=
  map (fun i => start + INR i * ((stop - start) / INR (num - 1))) (seq 0 num).

(** [a.astype(int)] *)
Definition astype_int (a : list R) : list Z := map trunc a.

(** [arr[i]] for one integer index: negative indices count from the end. *)
Definition np_index (arr : list R) (i : Z) : exc R :=
  let n := Z.of_nat (List.length arr) in
  let j := if (i <? 0)%Z then (i + n)%Z else i in
  if ((0 <=? j)%Z && (j <? n)%Z)%bool then
    match nth_error arr (Z.to_nat j) with
    | Some v => Ok v
    | None => Raise IndexError
    end
  else Raise IndexError.

(** [arr[idx]] for an array of indices. *)
Fixpoint np_take (arr : list R) (idx : list Z) : exc (list R) :=
  match idx with
  | [] => Ok []
  | i :: rest =>
      v <- np_index arr i ;;
      vs <- np_take arr rest ;;
      Ok (v :: vs)
  end.

Definition np_sum (a : list R) : R := fold_right Rplus 0 a.

Definition np_mean (a : list R) : R := np_sum a / INR (List.length a).

(** [np.arctan2(y, x)] *)
Definition arctan2 (y x : R) : R :=
  if Rlt_dec 0 x then atan (y / x)
  else if Rlt_dec x 0 then
    (if Rle_dec 0 y then atan (y / x) + PI else atan (y / x) - PI)
  else if Rlt_dec 0 y then PI / 2
  else if Rlt_dec y 0 then - (PI / 2)
  else 0.

(** Parameters *)
Definition b : R := 0.19.
Definition t_span : R * R := (0, 300).
Definition n_samples : nat := Z.to_nat 100000.
Definition t_eval : list R := linspace (fst t_span) (snd t_span) n_samples.
Definition initial_state : state := (1, 1, 1).

(** [rhodonea(theta, k, m, phi, a)]: [a * np.cos((k/m)*theta + phi)] *)
Definition rhodonea (theta k m phi a : R) : R :=
  a * cos ((k / m) * theta + phi).

Definition params : Type := (R * R * R * R)%type.

(** [rhodonea(theta, *popt)] on an array of angles. *)
Definition rhodonea_curve (theta : list R) (popt : params) : list R :=
  let '(k, m, phi, a) := popt in
  map (fun th => rhodonea th k m phi a) theta.

Definition p0 : params := (2, 5, 0, 1).

(** [np.linspace(0, len - 1, num).astype(int)] *)
Definition subsample_indices (len num : nat) : list Z :=
  astype_int (linspace 0 (IZR (Z.of_nat len - 1)) num).

(** [idx = np.linspace(0, len(theta)-1, 8000).astype(int)] *)
Definition n_fit : nat := Z.to_nat 8000.
Definition fit_indices (theta : list R) : list Z :=
  subsample_indices (List.length theta) n_fit.

(** [np.sqrt(np.mean((r - r_fit)**2))] *)
Definition rms_error (r r_fit : list R) : R :=
  sqrt (np_mean (zip_with (fun ri fi => (ri - fi) ^ 2) r r_fit)).

Section Pipeline.

(** The two library routines the script calls, left abstract:
    [solve_ivp(fun, t_span, y0, args=(b,), t_eval=t_eval, method="RK45")]
    and [curve_fit(f, xdata, ydata, p0=p0)] (which can raise
    [RuntimeError]). *)
Variable solve_ivp :
  (R -> state -> R -> state) -> R * R -> state -> R -> list R -> Scipy.OdeResult.
Variable curve_fit :
  (R -> R -> R -> R -> R -> R) -> list R -> list R -> params -> exc params.

(** Solve system *)
Definition sol : Scipy.OdeResult :=
  solve_ivp thomas t_span initial_state b t_eval.

(** [x, y, z = sol.y] *)
Definition x : list R := fst (fst (Scipy.y sol)).
Definition y : list R := snd (fst (Scipy.y sol)).
Definition z : list R := snd (Scipy.y sol).

(** Project onto XY plane *)
Definition r : list R := zip_with (fun xi yi => sqrt (xi ^ 2 + yi ^ 2)) x y.
Definition theta : list R := zip_with arctan2 y x.

(** Fit rhodonea curve to data (sample subset for speed), then compute the
    error: the two statements
    [popt, _ = curve_fit(rhodonea, theta[idx], r[idx], p0=[2, 5, 0, 1])] and
    [E_flower = np.sqrt(np.mean((r - rhodonea(theta, *popt))**2))],
    as a function of the polar samples. *)
Definition fit_popt (theta r : list R) : exc params :=
  let idx := fit_indices theta in
  theta_idx <- np_take theta idx ;;
  r_idx <- np_take r idx ;;
  curve_fit rhodonea theta_idx r_idx p0.

Definition fit_E_flower (theta r : list R) : exc R :=
  popt <- fit_popt theta r ;;
  let r_fit := rhodonea_curve theta popt in
  Ok (rms_error r r_fit).

Definition popt : exc params := fit_popt theta r.
Definition E_flower : exc R := fit_E_flower theta r.

End Pipeline.

(** ** [lyapunov_estimate] *)

(** The variables the loop of [lyapunov_estimate] updates. *)
Record lyap_state : Type := {
  x1 : R; y1 : R; z1 : R;
  x2 : R; y2 : R; z2 : R;
  d0 : R;
  d_sum : R;
  n : nat
}.

(** One pass through the body of the [for] loop. *)
Definition lyap_body (b dt : R) (s : lyap_state) : lyap_state :=
  let dx1 := sin (y1 s) - b * x1 s in
  let dy1 := sin (z1 s) - b * y1 s in
  let dz1 := sin (x1 s) - b * z1 s in
  let dx2 := sin (y2 s) - b * x2 s in
  let dy2 := sin (z2 s) - b * y2 s in
  let dz2 := sin (x2 s) - b * z2 s in
  let x1' := x1 s + dx1 * dt in
  let y1' := y1 s + dy1 * dt in
  let z1' := z1 s + dz1 * dt in
  let x2' := x2 s + dx2 * dt in
  let y2' := y2 s + dy2 * dt in
  let z2' := z2 s + dz2 * dt in
  let d := sqrt ((x2' - x1') ^ 2 + (y2' - y1') ^ 2 + (z2' - z1') ^ 2) in
  if Rlt_dec 0 d then
    {| x1 := x1'; y1 := y1'; z1 := z1'; x2 := x2'; y2 := y2'; z2 := z2';
       d0 := d; d_sum := d_sum s + ln (d / d0 s); n := S (n s) |}
  else
    {| x1 := x1'; y1 := y1'; z1 := z1'; x2 := x2'; y2 := y2'; z2 := z2';
       d0 := d0 s; d_sum := d_sum s; n := n s |}.

(** [for _ in range(count)] *)
Fixpoint lyap_loop (count : nat) (b dt : R) (s : lyap_state) : lyap_state :=
  match count with
  | O => s
  | S count' => lyap_loop count' b dt (lyap_body b dt s)
  end.

(** The state before the loop, for a perturbation [eps] of the first
    coordinate. *)
Definition lyap_init (eps : R) : lyap_state :=
  let x1 := 1 in
  let y1 := 1 in
  let z1 := 1 in
  let x2 := x1 + eps in
  let y2 := y1 in
  let z2 := z1 in
  {| x1 := x1; y1 := y1; z1 := z1; x2 := x2; y2 := y2; z2 := z2;
     d0 := sqrt ((x2 - x1) ^ 2 + (y2 - y1) ^ 2 + (z2 - z1) ^ 2);
     d_sum := 0; n := O |}.

(** [d_sum/(n*dt) if n>0 else 0] *)
Definition lyap_result (dt : R) (s : lyap_state) : R :=
  if (0 <? n s)%nat then d_sum s / (INR (n s) * dt) else 0.

(** [range(int(T/dt))]: the number of passes; [T/dt] raises on [dt = 0]. *)
Definition lyap_steps (T dt : R) : exc nat :=
  if Req_dec_T dt 0 then Raise ZeroDivisionError
  else Ok (Z.to_nat (trunc (T / dt))).

(** The body of [lyapunov_estimate] with the local constant [eps] made an
    argument. *)
Definition lyapunov_estimate_eps (eps b T dt : R) : exc R :=
  count <- lyap_steps T dt ;;
  Ok (lyap_result dt (lyap_loop count b dt (lyap_init eps))).

(** [lyapunov_estimate(b, T, dt)], with [eps = 1e-8] as in the source. *)
Definition eps : R := 1e-8.

Definition lyapunov_estimate (b T dt : R) : exc R :=
  lyapunov_estimate_eps eps b T dt.

(** [lambda_est = lyapunov_estimate(b)] with the defaults [T=200, dt=0.01]. *)
Definition lambda_est : exc R := lyapunov_estimate b 200 0.01.

(** [FI = (1/(1+E_flower)) * np.exp(-lambda_est)] *)
Definition FI (E_flower lambda_est : R) : R :=
  (1 / (1 + E_flower)) * exp (- lambda_est).

(** *** The estimator as the specification words it

    Two forward-Euler trajectories, their separations step by step, and the
    renormalisation rule folded over the separations. *)

Definition euler_step (b dt : R) (st : state) : state :=
  let '(x, y, z) := st in
  let '(dx, dy, dz) := thomas 0 st b in
  (x + dx * dt, y + dy * dt, z + dz * dt).

Definition dist (p q : state) : R :=
  let '(px, py, pz) := p in
  let '(qx, qy, qz) := q in
  sqrt ((qx - px) ^ 2 + (qy - py) ^ 2 + (qz - pz) ^ 2).

(** The separations after steps 1, 2, ..., [count]. *)
Fixpoint separations (count : nat) (b dt : R) (p q : state) : list R :=
  match count with
  | O => []
  | S count' =>
      let p' := euler_step b dt p in
      let q' := euler_step b dt q in
      dist p' q' :: separations count' b dt p' q'
  end.

(** The renormalisation rule: (reference separation, running sum, events). *)
Definition renorm (acc : R * R * nat) (d : R) : R * R * nat :=
  let '(d_ref, total, events) := acc in
  if Rlt_dec 0 d then (d, total + ln (d / d_ref), S events)
  else acc.

Definition renorm_all (ds : list R) (d_init : R) : R * R * nat :=
  fold_left renorm ds (d_init, 0, O).

(** The last strictly positive separation, [d_init] when there is none. *)
Definition last_positive (ds : list R) (d_init : R) : R :=
  fold_left (fun acc d => if Rlt_dec 0 d then d else acc) ds d_init.

Definition spec_estimate (eps b T dt : R) : R :=
  let p := (1, 1, 1) in
  let q := (1 + eps, 1, 1) in
  let ds := separations (Z.to_nat (Int_part (T / dt))) b dt p q in
  let '(_, total, events) := renorm_all ds (dist p q) in
  match events with
  | O => 0
  | S _ => total / (INR events * dt)
  end.

(** *** Views of the loop state *)

Definition traj1 (s : lyap_state) : state := (x1 s, y1 s, z1 s).
Definition traj2 (s : lyap_state) : state := (x2 s, y2 s, z2 s).
Definition acc_of (s : lyap_state) : R * R * nat := (d0 s, d_sum s, n s).

(** The number of strictly positive separations. *)
Definition events_of (ds : list R) : nat :=
  List.length (filter (fun d => if Rlt_dec 0 d then true else false) ds).

(** The states with three equal coordinates. *)
Definition on_diagonal (st : state) : Prop :=
  let '(x, y, z) := st in x = y /\ y = z.

(** *** Solvers *)

Definition solver : Type :=
  (R -> state -> R -> state) -> R * R -> state -> R -> list R -> Scipy.OdeResult.

(** A solver whose step failed right after the first sample. *)
Definition stalled_solver : solver :=
  fun _ _ y0 _ _ =>
    let '(x0, y0', z0) := y0 in
    {| Scipy.t := [0]; Scipy.y := ([x0], [y0'], [z0]);
       Scipy.status := (-1)%Z; Scipy.success := false |}.

(** *** The fit subset and the residuals *)

(** The [i]-th of [num] evenly spaced positions in an array of [len]
    samples: floor(i * (len - 1) / (num - 1)). *)
Definition even_index (len num i : nat) : Z :=
  (Z.of_nat i * (Z.of_nat len - 1) / (Z.of_nat num - 1))%Z.

(** The samples the optimiser is given. *)
Definition subsample (arr : list R) (idx : list Z) : list R :=
  map (fun i => nth (Z.to_nat i) arr 0) idx.

(** The squared radial residuals of a model over all the samples. *)
Definition residuals (theta r : list R) (popt : params) : list R :=
  let '(k, m, phi, a) := popt in
  zip_with (fun ri ti => (ri - a * cos ((k / m) * ti + phi)) ^ 2) r theta.

End Script.

(** * Properties *)

(** ** Basic facts about the float layer *)

Lemma py_lt_Fin_true (x y : R) : x < y -> py_lt (Fin x) (Fin y) = true.
Proof.
  intro H. unfold py_lt. destruct (Rlt_dec x y) as [_ | n]; [reflexivity | contradiction].
Qed.

Lemma py_lt_Fin_false (x y : R) : y <= x -> py_lt (Fin x) (Fin y) = false.
Proof.
  intro H. unfold py_lt. destruct (Rlt_dec x y) as [l | _]; [lra | reflexivity].
Qed.

Lemma bind_Ok_inv {A B : Type} (m : exc A) (k : A -> exc B) (v : B) :
  bind m k = Ok v -> exists a : A, m = Ok a /\ k a = Ok v.
Proof.
  destruct m as [a | e]; cbn [bind]; intro H; [ | discriminate].
  exists a. split; [reflexivity | exact H].
Qed.

Lemma py_div_Fin (x y : R) : y <> 0 -> py_div (Fin x) (Fin y) = Ok (Fin (x / y)).
Proof.
  intro H. unfold py_div. destruct (Req_dec_T y 0); [contradiction | reflexivity].
Qed.

Module InterfaceFacts.
Import Interface.

(** On present, non-negative inputs no branch of [flower_index] raises and
    the value is the closed formula. *)
Lemma flower_index_valid (E L : R) :
  0 <= E -> 0 <= L ->
  flower_index (Some (Fin E)) (Some (Fin L)) = Fin (1 / (1 + E) * exp (- L)).
Proof.
  intros HE HL. unfold flower_index.
  rewrite (py_lt_Fin_false E 0 HE), (py_lt_Fin_false L 0 HL). simpl orb. cbv iota.
  unfold py_add, lift2. rewrite py_div_Fin by lra. reflexivity.
Qed.

Lemma flower_index_None_l (L : option pyfloat) : flower_index None L = NaN.
Proof. reflexivity. Qed.

Lemma flower_index_None_r (E : option pyfloat) : flower_index E None = NaN.
Proof. destruct E; reflexivity. Qed.

Lemma flower_index_negative_l (e : R) (L : option pyfloat) :
  e < 0 -> flower_index (Some (Fin e)) L = NaN.
Proof.
  intro He. destruct L as [l | ]; [ | reflexivity].
  unfold flower_index. rewrite (py_lt_Fin_true e 0 He). reflexivity.
Qed.

Lemma flower_index_negative_r (E : option pyfloat) (l : R) :
  l < 0 -> flower_index E (Some (Fin l)) = NaN.
Proof.
  intro Hl. destruct E as [e | ]; [ | reflexivity].
  unfold flower_index. rewrite (py_lt_Fin_true l 0 Hl), orb_true_r. reflexivity.
Qed.

(** A not-a-number operand that gets past the sign tests still yields
    not-a-number. *)
Lemma flower_index_NaN_l (L : option pyfloat) : flower_index (Some NaN) L = NaN.
Proof.
  destruct L as [[| l] | ]; try reflexivity.
  unfold flower_index. simpl. destruct (Rlt_dec l 0); reflexivity.
Qed.

Lemma flower_index_NaN_r (E : option pyfloat) : flower_index E (Some NaN) = NaN.
Proof.
  destruct E as [[| e] | ]; try reflexivity.
  unfold flower_index. simpl. destruct (Rlt_dec e 0); [reflexivity | ].
  simpl. destruct (Req_dec_T (1 + e) 0); reflexivity.
Qed.




(** C1.  For present, non-negative E and lambda the combiner returns
    (1 / (1 + E)) * exp(-lambda); when either input is missing ([None]) or
    negative it returns the not-a-number value, which is no real number at
    all (in particular neither zero nor any default). *)
Theorem flower_index_contract :
  (forall E L : R, 0 <= E -> 0 <= L ->
     flower_index (Some (Fin E)) (Some (Fin L)) = Fin (1 / (1 + E) * exp (- L)))
  /\
  (forall E L : option pyfloat,
     missing_or_negative E \/ missing_or_negative L ->
     flower_index E L = NaN /\ forall r : R, flower_index E L <> Fin r).
Proof.
  split.
  - exact flower_index_valid.
  - intros E L H.
    assert (Hnan : flower_index E L = NaN).
    { destruct H as [[-> | (e & -> & He)] | [-> | (l & -> & Hl)]].
      + apply flower_index_None_l.
      + now apply flower_index_negative_l.
      + apply flower_index_None_r.
      + now apply flower_index_negative_r. }
    split; [exact Hnan | ].
    intros r Hr. rewrite Hnan in Hr. discriminate.
Qed.

Lemma flower_index_contract_witness :
  flower_index (Some (Fin 0)) (Some (Fin 2)) = Fin (1 / (1 + 0) * exp (- 2))
  /\ flower_index None (Some (Fin 2)) = NaN
  /\ flower_index (Some (Fin (-1))) (Some (Fin 2)) = NaN.
Proof.
  split; [apply (proj1 flower_index_contract); lra | split].
  - apply (proj2 flower_index_contract). left. now left.
  - apply (proj2 flower_index_contract). left. right.
    exists (-1). split; [reflexivity | lra].
Defined.

(** X2.  A not-a-number operand is not caught by the sign tests of
    [flower_index] ([nan < 0] is false) but propagates through the
    arithmetic: the result is not-a-number whatever the other operand. *)
Theorem flower_index_nan_operand :
  forall v : option pyfloat,
    flower_index (Some NaN) v = NaN /\ flower_index v (Some NaN) = NaN.
Proof.
  intro v. split; [apply flower_index_NaN_l | apply flower_index_NaN_r].
Qed.

End InterfaceFacts.

(** ** The Flower Index with underflow *)

Module UnderflowFacts.
Import Interface.



















End UnderflowFacts.

(** ** The two rhodonea evaluations *)

Module RhodoneaFacts.
Import Interface.

Lemma rhodonea_r_Fin (cfg : ThomasFlowerConfig) (k m phi a theta : R) :
  rhodonea_k cfg = Fin k -> rhodonea_m cfg = Fin m ->
  rhodonea_phi cfg = Fin phi -> rhodonea_a cfg = Fin a ->
  rhodonea_r cfg (Fin theta) = Fin (a * cos (k * m * theta + phi)).
Proof.
  intros Hk Hm Hphi Ha. unfold rhodonea_r. rewrite Hk, Hm, Hphi, Ha. reflexivity.
Qed.

(** The per-configuration radius function does not compute the model with
    k/m: at k = 1, m = 2, phi = 0, a = 1 and theta = pi it returns
    cos(2 pi) = 1, where a cos((k/m) theta + phi) = cos(pi/2) = 0. *)
Lemma rhodonea_r_is_not_k_over_m :
  rhodonea_r (sample_config 1 2 0 1) (Fin PI) = Fin 1
  /\ Script.rhodonea PI 1 2 0 1 = 0
  /\ rhodonea_r (sample_config 1 2 0 1) (Fin PI)
     <> Fin (1 * cos ((1 / 2) * PI + 0)).
Proof.
  assert (H1 : rhodonea_r (sample_config 1 2 0 1) (Fin PI) = Fin 1).
  { rewrite (rhodonea_r_Fin _ 1 2 0 1 PI) by reflexivity.
    f_equal. replace (1 * 2 * PI + 0) with (2 * PI) by ring.
    rewrite cos_2PI. ring. }
  assert (H2 : cos ((1 / 2) * PI + 0) = 0).
  { replace ((1 / 2) * PI + 0) with (PI / 2) by field. apply cos_PI2. }
  repeat split.
  - exact H1.
  - unfold Script.rhodonea. rewrite H2. ring.
  - rewrite H1, H2. intro H. injection H as H. lra.
Qed.

(** C2 (amended).  The script's fit model [rhodonea] evaluates
    a cos((k/m) theta + phi); the configuration's [rhodonea_r] evaluates
    a cos(k m theta + phi), the formula its docstring and the exported
    formula string give; the two agree when m * m = 1. *)
Theorem rhodonea_two_models :
  (forall theta k m phi a : R,
     Script.rhodonea theta k m phi a = a * cos ((k / m) * theta + phi))
  /\
  (forall (cfg : ThomasFlowerConfig) (k m phi a theta : R),
     rhodonea_k cfg = Fin k -> rhodonea_m cfg = Fin m ->
     rhodonea_phi cfg = Fin phi -> rhodonea_a cfg = Fin a ->
     rhodonea_r cfg (Fin theta) = Fin (a * cos (k * m * theta + phi))
     /\ (m * m = 1 ->
         rhodonea_r cfg (Fin theta) = Fin (Script.rhodonea theta k m phi a))).
Proof.
  split; [reflexivity | ].
  intros cfg k m phi a theta Hk Hm Hphi Ha.
  rewrite (rhodonea_r_Fin cfg k m phi a theta) by assumption.
  split; [reflexivity | ].
  intro Hmm. unfold Script.rhodonea. do 3 f_equal.
  assert (m <> 0) by (intro; subst; lra).
  replace (k / m) with (k * m); [reflexivity | ].
  apply (Rmult_eq_reg_r m); [ | assumption].
  unfold Rdiv. rewrite !Rmult_assoc, Rinv_l, Hmm by assumption. reflexivity.
Qed.

Lemma rhodonea_two_models_witness :
  rhodonea_r (sample_config 3 1 0 2) (Fin PI) = Fin (2 * cos (3 * 1 * PI + 0))
  /\ (1 * 1 = 1 ->
      rhodonea_r (sample_config 3 1 0 2) (Fin PI)
      = Fin (Script.rhodonea PI 3 1 0 2)).
Proof.
  apply (proj2 rhodonea_two_models (sample_config 3 1 0 2) 3 1 0 2 PI);
    reflexivity.
Defined.

End RhodoneaFacts.

(** ** The exported document *)

Module ExportFacts.
Import Interface.

Lemma shape_of_optional (v : option pyfloat) :
  shape_of (json_of_optional v) = Leaf.
Proof. destruct v; reflexivity. Qed.

Lemma shape_of_to_js_config (cfg : ThomasFlowerConfig) :
  shape_of (to_js_config cfg) = js_config_schema.
Proof.
  unfold to_js_config. cbn [shape_of map fst snd].
  rewrite !shape_of_optional. reflexivity.
Qed.

Lemma export_items_shape (configs : list ThomasFlowerConfig) :
  Forall (fun doc => shape_of doc = js_config_schema) (map to_js_config configs).
Proof.
  induction configs as [| cfg rest IH]; simpl map; constructor.
  - apply shape_of_to_js_config.
  - exact IH.
Qed.

(** C7.  Every record produced by [to_js_config] has exactly the field
    names and nesting of the schema (seed being a list of three numbers);
    metrics.FI_computed is [flower_index] of the record's E_flower and
    lambda_max; and [export_js_config] emits one such record per
    configuration, in order. *)
Theorem to_js_config_schema :
  forall cfg : ThomasFlowerConfig,
    shape_of (to_js_config cfg) = js_config_schema
    /\ json_get2 "metrics" "FI_computed" (to_js_config cfg)
       = Some (JFloat (flower_index (E_flower cfg) (lambda_max cfg)))
    /\ json_get2 "model" "seed" (to_js_config cfg)
       = Some (JList [JFloat (seed_x cfg); JFloat (seed_y cfg); JFloat (seed_z cfg)])
    /\ forall configs : list ThomasFlowerConfig,
         exists docs : list json,
           export_js_config configs = JList docs
           /\ List.length docs = List.length configs
           /\ Forall (fun doc => shape_of doc = js_config_schema) docs.
Proof.
  intro cfg. split; [apply shape_of_to_js_config | ].
  split; [reflexivity | ]. split; [reflexivity | ].
  intro configs. exists (map to_js_config configs).
  split; [reflexivity | ]. split; [apply length_map | apply export_items_shape].
Qed.

End ExportFacts.

(** ** Loading a batch *)

Lemma trunc_IZR (z : Z) : trunc (IZR z) = z.
Proof.
  assert (Hfloor : forall k : Z, Int_part (IZR k) = k).
  { intro k. symmetry. apply Int_part_spec. lra. }
  unfold trunc. destruct (Rle_dec 0 (IZR z)) as [_ | _].
  - apply Hfloor.
  - rewrite <- opp_IZR, Hfloor. lia.
Qed.

Module LoaderFacts.
Import Interface.

Section Loader.

Variable float_of_str : string -> exc pyfloat.
Variable int_of_str : string -> exc Z.
Variable str_of_float : pyfloat -> string.
Variable str_of_int : Z -> string.

Let row_to_config := row_to_config float_of_str int_of_str str_of_float str_of_int.
Let load_rows := load_rows float_of_str int_of_str str_of_float str_of_int.
Let load_configs := load_configs float_of_str int_of_str str_of_float str_of_int.

Lemma good_row_converts :
  row_to_config (combine csv_columns good_cells) = Ok good_config.
Proof.
  unfold row_to_config, Interface.row_to_config. cbn. rewrite trunc_IZR. reflexivity.
Qed.

Lemma bad_row_raises :
  row_to_config (combine csv_columns bad_cells) = Raise ValueError.
Proof. reflexivity. Qed.

(** When every row converts, the loop returns the conversions in order,
    after what was already collected. *)
Lemma load_rows_all_ok (rows : list Row) (cfgs acc : list ThomasFlowerConfig) :
  Forall2 (fun row cfg => row_to_config row = Ok cfg) rows cfgs ->
  load_rows rows acc = Ok (acc ++ cfgs).
Proof.
  intro H. revert acc.
  induction H as [| row cfg rows cfgs Hrow _ IH]; intro acc.
  - simpl. now rewrite app_nil_r.
  - unfold load_rows, Interface.load_rows. fold Interface.load_rows.
    fold row_to_config. rewrite Hrow. cbn [bind].
    fold load_rows. rewrite IH, <- app_assoc. reflexivity.
Qed.

(** The first row whose conversion raises ends the loop with that
    exception: what was collected so far is dropped. *)
Lemma load_rows_first_failure
  (good : list Row) (bad : Row) (rest : list Row)
  (cfgs acc : list ThomasFlowerConfig) (e : exn) :
  Forall2 (fun row cfg => row_to_config row = Ok cfg) good cfgs ->
  row_to_config bad = Raise e ->
  load_rows (good ++ bad :: rest) acc = Raise e.
Proof.
  intros H Hbad. revert acc.
  induction H as [| row cfg rows cfgs' Hrow _ IH]; intro acc.
  - cbn [app]. unfold load_rows, Interface.load_rows. fold Interface.load_rows.
    fold row_to_config. now rewrite Hbad.
  - cbn [app]. unfold load_rows, Interface.load_rows. fold Interface.load_rows.
    fold row_to_config. rewrite Hrow. cbn [bind]. apply IH.
Qed.

Let row_converts := row_converts float_of_str int_of_str.

(** [row_converts] decides whether the constructor call succeeds. *)
Lemma row_converts_iff (row : Row) :
  row_converts row = true <-> exists cfg, row_to_config row = Ok cfg.
Proof.
  unfold row_converts, Interface.row_converts, float_fields, int_fields,
    optional_fields, row_to_config, Interface.row_to_config.
  cbn [forallb]. cbv zeta. split.
  - intro H.
    repeat match type of H with
           | context [succeeds ?m] =>
               destruct m eqn:?; cbn [succeeds andb] in H; [ | discriminate H]
           end.
    cbn [bind]. eexists. reflexivity.
  - intros [cfg H].
    repeat (apply bind_Ok_inv in H;
            let Hm := fresh "Hm" in destruct H as (? & Hm & H); rewrite Hm).
    reflexivity.
Qed.

Lemma row_not_converts (row : Row) :
  row_converts row = false -> exists e, row_to_config row = Raise e.
Proof.
  intro H. destruct (row_to_config row) as [cfg | e] eqn:Hrow.
  - assert (Hok : row_converts row = true)
      by (apply row_converts_iff; now exists cfg).
    rewrite Hok in H. discriminate H.
  - now exists e.
Qed.

(** The loop returns a list exactly when every row converts. *)
Lemma load_rows_decided (rows : list Row) (acc : list ThomasFlowerConfig) :
  if forallb row_converts rows
  then exists cfgs, load_rows rows acc = Ok (acc ++ cfgs)
                    /\ List.length cfgs = List.length rows
  else exists e, load_rows rows acc = Raise e.
Proof.
  revert acc. induction rows as [| row rows IH]; intro acc.
  - cbn [forallb]. exists []. split; [cbn; now rewrite app_nil_r | reflexivity].
  - cbn [forallb]. unfold load_rows. cbn [Interface.load_rows].
    fold load_rows row_to_config.
    destruct (row_converts row) eqn:Hrow; cbn [andb].
    + apply row_converts_iff in Hrow. destruct Hrow as [cfg Hcfg].
      rewrite Hcfg. cbn [bind]. specialize (IH (acc ++ [cfg])).
      destruct (forallb row_converts rows).
      * destruct IH as (cfgs & -> & Hlen). exists (cfg :: cfgs).
        split; [now rewrite <- app_assoc | cbn; now rewrite Hlen].
      * exact IH.
    + apply row_not_converts in Hrow. destruct Hrow as [e He].
      rewrite He. now exists e.
Qed.

End Loader.

(** A malformed row aborts the batch: of two records, the first well formed
    and the second with [steps] empty, [load_configs] returns no
    configuration at all, whatever the text conversions do. *)
Lemma load_configs_one_bad_row_aborts :
  (forall float_of_str int_of_str str_of_float str_of_int,
     row_to_config float_of_str int_of_str str_of_float str_of_int
       (combine csv_columns good_cells) = Ok good_config)
  /\
  (forall float_of_str int_of_str str_of_float str_of_int,
     load_configs float_of_str int_of_str str_of_float str_of_int
       params_store "params.csv"%string = Raise ValueError).
Proof.
  split; intros fos ios sof soi.
  - apply good_row_converts.
  - unfold load_configs, read_csv, params_store. cbn [String.eqb Ascii.eqb Bool.eqb bind].
    unfold iterrows, one_bad_row. cbn [columns data map].
    apply (load_rows_first_failure fos ios sof soi
             [combine csv_columns good_cells] _ [] [good_config] []).
    + constructor; [apply good_row_converts | constructor].
    + apply bad_row_raises.
Qed.

(** C3 (amended).  [load_configs] returns one configuration per row, in
    row order, exactly when every row converts, and otherwise raises the
    exception of the first row that does not: no row is skipped or flagged
    and no configuration is returned.  A row converts when [float] succeeds
    on its ten float fields, [int] on steps and transient_steps, and each
    optional metric is empty, absent or convertible.  [float] and [int]
    raise on an absent column and on a string that does not parse, [int]
    also on an empty cell; an empty cell in a float field does not raise (it
    loads as not-a-number) and the string fields never raise. *)
Theorem load_configs_all_or_nothing :
  forall float_of_str int_of_str str_of_float str_of_int
         (fs : store) (csv_path : string) (df : DataFrame),
    fs csv_path = Some df ->
    (forall cfgs : list ThomasFlowerConfig,
       Forall2 (fun row cfg =>
                  row_to_config float_of_str int_of_str str_of_float str_of_int row
                  = Ok cfg) (iterrows df) cfgs ->
       load_configs float_of_str int_of_str str_of_float str_of_int fs csv_path
       = Ok cfgs)
    /\
    (forall (good : list Row) (bad : Row) (rest : list Row)
            (cfgs : list ThomasFlowerConfig) (e : exn),
       iterrows df = good ++ bad :: rest ->
       Forall2 (fun row cfg =>
                  row_to_config float_of_str int_of_str str_of_float str_of_int row
                  = Ok cfg) good cfgs ->
       row_to_config float_of_str int_of_str str_of_float str_of_int bad = Raise e ->
       load_configs float_of_str int_of_str str_of_float str_of_int fs csv_path
       = Raise e)
    /\
    (forallb (row_converts float_of_str int_of_str) (iterrows df) = true ->
     exists cfgs : list ThomasFlowerConfig,
       load_configs float_of_str int_of_str str_of_float str_of_int fs csv_path
       = Ok cfgs
       /\ List.length cfgs = List.length (data df))
    /\
    (forallb (row_converts float_of_str int_of_str) (iterrows df) = false ->
     exists e : exn,
       load_configs float_of_str int_of_str str_of_float str_of_int fs csv_path
       = Raise e)
    /\
    (forall row : Row,
       row_converts float_of_str int_of_str row = true
       <-> exists cfg : ThomasFlowerConfig,
             row_to_config float_of_str int_of_str str_of_float str_of_int row
             = Ok cfg)
    /\
    (py_float float_of_str None = Raise TypeError
     /\ py_int int_of_str None = Raise TypeError
     /\ py_float float_of_str (Some (CFloat NaN)) = Ok NaN
     /\ py_int int_of_str (Some (CFloat NaN)) = Raise ValueError
     /\ optional_float float_of_str None = Ok None
     /\ optional_float float_of_str (Some (CFloat NaN)) = Ok None
     /\ (forall s : string,
           py_float float_of_str (Some (CStr s)) = float_of_str s
           /\ py_int int_of_str (Some (CStr s)) = int_of_str s)).
Proof.
  intros fos ios sof soi fs csv_path df Hdf.
  unfold load_configs, read_csv. rewrite Hdf. cbn [bind].
  split; [ | split; [ | split; [ | split; [ | split]]]].
  - intros cfgs H. now apply (load_rows_all_ok fos ios sof soi _ cfgs []).
  - intros good bad rest cfgs e Hrows Hgood Hbad. rewrite Hrows.
    now apply (load_rows_first_failure fos ios sof soi good bad rest cfgs []).
  - intro Hall.
    pose proof (load_rows_decided fos ios sof soi (iterrows df) []) as H.
    rewrite Hall in H. destruct H as (cfgs & Hload & Hlen).
    exists cfgs. split; [exact Hload | ].
    rewrite Hlen. unfold iterrows. apply length_map.
  - intro Hsome.
    pose proof (load_rows_decided fos ios sof soi (iterrows df) []) as H.
    now rewrite Hsome in H.
  - intro row. apply row_converts_iff.
  - repeat split; reflexivity.
Qed.

Lemma load_configs_all_or_nothing_witness :
  params_store "params.csv"%string = Some one_bad_row
  /\ load_configs (fun _ => Raise ValueError) (fun _ => Raise ValueError)
       (fun _ => EmptyString) (fun _ => EmptyString)
       params_store "params.csv"%string = Raise ValueError.
Proof.
  split; [reflexivity | ].
  destruct (load_configs_all_or_nothing
              (fun _ => Raise ValueError) (fun _ => Raise ValueError)
              (fun _ => EmptyString) (fun _ => EmptyString)
              params_store "params.csv" one_bad_row eq_refl)
    as (_ & Hfirst & _).
  apply (Hfirst [combine csv_columns good_cells] (combine csv_columns bad_cells) []
           [good_config] ValueError).
  - reflexivity.
  - constructor; [apply good_row_converts | constructor].
  - apply bad_row_raises.
Defined.

End LoaderFacts.

(** ** Enrichment *)

Lemma zip_with_map_r {A B C : Type} (f : A -> B -> C) (g : A -> B) (l : list A) :
  zip_with f l (map g l) = map (fun a => f a (g a)) l.
Proof.
  induction l as [| a l IH]; simpl; [reflexivity | now rewrite IH].
Qed.

Module EnrichFacts.
Import Interface.

Lemma assoc_app {A : Type} (key : string) (l1 l2 : list (string * A)) :
  assoc key (l1 ++ l2)
  = match assoc key l1 with
    | Some v => Some v
    | None => assoc key l2
    end.
Proof.
  induction l1 as [| [k v] l1 IH]; simpl; [reflexivity | ].
  destruct (String.eqb k key); [reflexivity | exact IH].
Qed.

Lemma assoc_combine_absent (key : string) (cols : list string) (cells : list cell) :
  ~ In key cols -> assoc key (combine cols cells) = None.
Proof.
  revert cells. induction cols as [| k cols IH]; intros cells Hnot; [reflexivity | ].
  destruct cells as [| c cells]; [reflexivity | ]. simpl.
  destruct (String.eqb_spec k key) as [-> | _].
  - exfalso. apply Hnot. now left.
  - apply IH. intro H. apply Hnot. now right.
Qed.

Lemma combine_snoc (cols : list string) (cells : list cell) (k : string) (c : cell) :
  List.length cells = List.length cols ->
  combine (cols ++ [k]) (cells ++ [c]) = combine cols cells ++ [(k, c)].
Proof.
  revert cells. induction cols as [| k0 cols IH]; intros [| c0 cells] Hlen;
    try discriminate; [reflexivity | ].
  simpl. f_equal. apply IH. now injection Hlen.
Qed.

Lemma index_of_absent (key : string) (cols : list string) :
  ~ In key cols -> index_of key cols = None.
Proof.
  induction cols as [| k cols IH]; intro Hnot; [reflexivity | ]. simpl.
  destruct (String.eqb_spec k key) as [-> | _].
  - exfalso. apply Hnot. now left.
  - rewrite IH; [reflexivity | ]. intro H. apply Hnot. now right.
Qed.

Section Enrich.

Variable float_of_str : string -> exc pyfloat.

Let py_float := py_float float_of_str.
Let _fi := _fi float_of_str.
Let _delta := _delta float_of_str.
Let enrich_frame := enrich_frame float_of_str.
Let delta_of := delta_of float_of_str.
Let fi_cell := fi_cell float_of_str.
Let delta_cell := delta_cell float_of_str.

Lemma delta_of_missing (reported : option cell) (computed : pyfloat) :
  reported = None \/ reported = Some (CFloat NaN) \/ computed = NaN ->
  delta_of reported computed = NaN.
Proof.
  intros [-> | [-> | ->]]; [reflexivity | reflexivity | ].
  destruct reported as [c | ]; [ | reflexivity].
  unfold delta_of, Interface.delta_of. fold py_float.
  destruct (py_float (Some c)) as [[| r] | e]; reflexivity.
Qed.

Lemma delta_of_Fin (r c : R) :
  delta_of (Some (CFloat (Fin r))) (Fin c) = Fin (Rabs (r - c)).
Proof. reflexivity. Qed.

Lemma _fi_floats (row : Row) (E L : pyfloat) :
  row_get row "E_flower" = Some (CFloat E) ->
  row_get row "lambda_max" = Some (CFloat L) ->
  _fi row = flower_index (Some E) (Some L).
Proof.
  unfold row_get. intros HE HL.
  unfold _fi, Interface._fi, row_getitem. rewrite HE, HL. reflexivity.
Qed.

(** [_delta] on a row that already carries the computed column. *)
Lemma _delta_extended (cols : list string) (cells : list cell) (fi : pyfloat) :
  List.length cells = List.length cols ->
  ~ In "FI_computed"%string cols ->
  _delta (combine (cols ++ ["FI_computed"%string]) (cells ++ [CFloat fi]))
  = delta_of (row_get (combine cols cells) "FI_reported") fi.
Proof.
  intros Hlen Hnot. rewrite combine_snoc by assumption.
  unfold _delta, Interface._delta, row_getitem, row_get, delta_of, Interface.delta_of.
  rewrite !assoc_app, (assoc_combine_absent "FI_computed" cols cells Hnot).
  destruct (assoc "FI_reported" (combine cols cells)) as [c | ]; [ | reflexivity].
  cbn [bind]. fold py_float.
  destruct (py_float (Some c)) as [r | e]; reflexivity.
Qed.

Lemma enrich_frame_fresh (df : DataFrame) :
  aligned df ->
  ~ In "FI_computed"%string (columns df) ->
  ~ In "FI_delta"%string (columns df) ->
  enrich_frame df
  = {| columns := columns df ++ ["FI_computed"; "FI_delta"]%string;
       data := map (fun cells =>
                      cells ++ [CFloat (fi_cell (columns df) cells);
                                CFloat (delta_cell (columns df) cells)])
                   (data df) |}.
Proof.
  intros Hal Hc Hd. destruct df as [cols rows]. unfold aligned in Hal.
  cbn [columns data] in *.
  unfold enrich_frame, Interface.enrich_frame, set_column, apply_rows, iterrows.
  cbn [columns data]. rewrite (index_of_absent _ _ Hc). cbn [columns data].
  rewrite index_of_absent.
  2:{ rewrite in_app_iff. intros [H | [H | []]]; [now apply Hd | discriminate H]. }
  cbn [columns data]. rewrite <- app_assoc. cbn [app]. f_equal.
  rewrite !map_map, !zip_with_map_r, map_map.
  apply map_ext_in. intros cells Hin.
  rewrite Forall_forall in Hal. specialize (Hal cells Hin).
  rewrite <- app_assoc. cbn [app]. do 3 f_equal.
  fold _fi _delta. rewrite _delta_extended by assumption. reflexivity.
Qed.

End Enrich.

End EnrichFacts.

Module EnrichClaims.
Import Interface EnrichFacts.

Lemma flower_index_0_0 : flower_index (Some (Fin 0)) (Some (Fin 0)) = Fin 1.
Proof.
  rewrite InterfaceFacts.flower_index_valid by lra. f_equal.
  rewrite Ropp_0, exp_0, Rplus_0_r. field.
Qed.

Lemma enrich_already_enriched (float_of_str : string -> exc pyfloat) :
  enrich_frame float_of_str already_enriched
  = {| columns := ["E_flower"; "lambda_max"; "FI_reported"; "FI_computed";
                   "FI_delta"]%string;
       data := [[CFloat (Fin 0); CFloat (Fin 0); CFloat (Fin 1);
                 CFloat (Fin 1); CFloat (Fin 0)]] |}.
Proof.
  unfold enrich_frame.
  assert (H1 : apply_rows (_fi float_of_str) already_enriched = [Fin 1]).
  { unfold apply_rows, iterrows, already_enriched. cbn [map columns data combine].
    rewrite (_fi_floats float_of_str _ (Fin 0) (Fin 0)) by reflexivity.
    now rewrite flower_index_0_0. }
  rewrite H1.
  assert (H2 : set_column already_enriched "FI_computed" [Fin 1]
               = {| columns := columns already_enriched;
                    data := [[CFloat (Fin 0); CFloat (Fin 0); CFloat (Fin 1);
                              CFloat (Fin 1)]] |}) by reflexivity.
  rewrite H2.
  assert (H3 : apply_rows (_delta float_of_str)
                 {| columns := columns already_enriched;
                    data := [[CFloat (Fin 0); CFloat (Fin 0); CFloat (Fin 1);
                              CFloat (Fin 1)]] |} = [Fin 0]).
  { unfold apply_rows, iterrows, already_enriched. cbn [map columns data combine].
    unfold _delta, row_getitem. cbn [assoc String.eqb Ascii.eqb Bool.eqb bind py_float try_except].
    unfold py_sub, py_abs, lift2, lift1.
    replace (1 - 1) with 0 by ring. now rewrite Rabs_R0. }
  rewrite H3. reflexivity.
Qed.

(** Enrichment can change input values and can overwrite its input: on a
    table that already has a column FI_computed the stored 0.5 is replaced
    by the recomputed 1 (and only one column is added); and with the output
    path equal to the input path the input file is replaced by the enriched
    table. *)
Lemma enrich_changes_input :
  (forall float_of_str : string -> exc pyfloat,
     data already_enriched
     = [[CFloat (Fin 0); CFloat (Fin 0); CFloat (Fin 1); CFloat (Fin 0.5)]]
     /\ enrich_frame float_of_str already_enriched
        = {| columns := ["E_flower"; "lambda_max"; "FI_reported"; "FI_computed";
                         "FI_delta"]%string;
             data := [[CFloat (Fin 0); CFloat (Fin 0); CFloat (Fin 1);
                       CFloat (Fin 1); CFloat (Fin 0)]] |})
  /\
  (forall float_of_str : string -> exc pyfloat,
     exists fs' : store,
       enrich_csv_with_fi float_of_str (one_file plain_table)
         "params.csv" "params.csv" = Ok fs'
       /\ fs' "params.csv"%string <> one_file plain_table "params.csv"%string).
Proof.
  split; intro fos.
  - split; [reflexivity | apply enrich_already_enriched].
  - eexists. split; [reflexivity | ].
    unfold to_csv, one_file. cbn [String.eqb Ascii.eqb Bool.eqb].
    intro H.
    assert (H' : enrich_frame fos plain_table = plain_table) by congruence.
    rewrite (enrich_frame_fresh fos plain_table) in H'.
    + apply (f_equal (fun df => List.length (columns df))) in H'. discriminate H'.
    + repeat constructor.
    + cbn. intuition discriminate.
    + cbn. intuition discriminate.
Qed.

(** C8 (amended).  For an input table with no column already named
    FI_computed or FI_delta, written to a path other than the one read,
    enrichment keeps every row, every column and every cell, and appends
    exactly two cells to each row: FI_computed, which is [flower_index] of
    the row's E_flower and lambda_max when these are floats, and
    FI_delta = |FI_reported - FI_computed|, which is not-a-number whenever
    FI_reported is absent or empty or FI_computed is not-a-number; the file
    read, and every other file than the one written, is left as it was. *)
Theorem enrich_adds_two_columns :
  forall (float_of_str : string -> exc pyfloat) (fs : store)
         (csv_in csv_out : string) (df : DataFrame),
    fs csv_in = Some df ->
    aligned df ->
    ~ In "FI_computed"%string (columns df) ->
    ~ In "FI_delta"%string (columns df) ->
    csv_in <> csv_out ->
    exists (fs' : store) (out : DataFrame),
      enrich_csv_with_fi float_of_str fs csv_in csv_out = Ok fs'
      /\ fs' csv_in = Some df
      /\ (forall p : string, p <> csv_out -> fs' p = fs p)
      /\ fs' csv_out = Some out
      /\ columns out = columns df ++ ["FI_computed"; "FI_delta"]%string
      /\ data out
         = map (fun cells =>
                  cells ++ [CFloat (fi_cell float_of_str (columns df) cells);
                            CFloat (delta_cell float_of_str (columns df) cells)])
               (data df)
      /\ (forall (cells : list cell) (E L : pyfloat),
            row_get (combine (columns df) cells) "E_flower" = Some (CFloat E) ->
            row_get (combine (columns df) cells) "lambda_max" = Some (CFloat L) ->
            fi_cell float_of_str (columns df) cells
            = flower_index (Some E) (Some L))
      /\ (forall (cells : list cell) (r c : R),
            row_get (combine (columns df) cells) "FI_reported"
              = Some (CFloat (Fin r)) ->
            fi_cell float_of_str (columns df) cells = Fin c ->
            delta_cell float_of_str (columns df) cells = Fin (Rabs (r - c)))
      /\ (forall cells : list cell,
            row_get (combine (columns df) cells) "FI_reported" = None
            \/ row_get (combine (columns df) cells) "FI_reported"
               = Some (CFloat NaN)
            \/ fi_cell float_of_str (columns df) cells = NaN ->
            delta_cell float_of_str (columns df) cells = NaN).
Proof.
  intros fos fs csv_in csv_out df Hin Hal Hc Hd Hneq.
  exists (to_csv fs csv_out (enrich_frame fos df)), (enrich_frame fos df).
  split; [unfold enrich_csv_with_fi, read_csv; now rewrite Hin | ].
  split.
  { unfold to_csv. destruct (String.eqb_spec csv_in csv_out); [contradiction | exact Hin]. }
  split.
  { intros p Hp. unfold to_csv. destruct (String.eqb_spec p csv_out); [contradiction | reflexivity]. }
  split; [unfold to_csv; now rewrite String.eqb_refl | ].
  rewrite (enrich_frame_fresh fos df Hal Hc Hd). cbn [columns data].
  split; [reflexivity | ]. split; [reflexivity | ].
  split; [ | split].
  - intros cells E L HE HL. now apply _fi_floats.
  - intros cells r c Hr Hfi. unfold delta_cell. rewrite Hr, Hfi. apply delta_of_Fin.
  - intros cells H. unfold delta_cell. now apply delta_of_missing.
Qed.

Lemma enrich_adds_two_columns_witness :
  exists (fs' : store) (out : DataFrame),
    enrich_csv_with_fi (fun _ => Raise ValueError) (one_file plain_table)
      "params.csv" "enriched.csv" = Ok fs'
    /\ fs' "params.csv"%string = Some plain_table
    /\ fs' "enriched.csv"%string = Some out
    /\ columns out = columns plain_table ++ ["FI_computed"; "FI_delta"]%string.
Proof.
  destruct (enrich_adds_two_columns (fun _ => Raise ValueError)
              (one_file plain_table) "params.csv" "enriched.csv" plain_table)
    as (fs' & out & H1 & H2 & _ & H4 & H5 & _).
  - reflexivity.
  - repeat constructor.
  - cbn. intuition discriminate.
  - cbn. intuition discriminate.
  - discriminate.
  - exists fs', out. repeat split; assumption.
Defined.

End EnrichClaims.

(** ** The perturbation exponent estimator *)

Lemma Int_part_IZR (k : Z) : Int_part (IZR k) = k.
Proof. symmetry. apply Int_part_spec. lra. Qed.

Lemma Int_part_nonneg (r : R) : 0 <= r -> (0 <= Int_part r)%Z.
Proof.
  intro H. destruct (base_Int_part r) as [_ Hlow].
  assert (Hlt : IZR (-1) < IZR (Int_part r)) by lra.
  apply lt_IZR in Hlt. lia.
Qed.

Lemma Int_part_neg (r : R) : r < 0 -> (Int_part r < 0)%Z.
Proof.
  intro H. destruct (base_Int_part r) as [Hup _].
  apply lt_IZR. lra.
Qed.

(** [range(int(r))] and [range(floor(r))] make the same number of passes. *)
Lemma to_nat_trunc_floor (r : R) : Z.to_nat (trunc r) = Z.to_nat (Int_part r).
Proof.
  unfold trunc. destruct (Rle_dec 0 r) as [_ | Hneg]; [reflexivity | ].
  assert (Hr : r < 0) by lra.
  assert (Hopp : 0 <= - r) by lra.
  pose proof (Int_part_neg r Hr). pose proof (Int_part_nonneg (- r) Hopp). lia.
Qed.

Module LyapunovFacts.
Import Script.

(** One pass of the loop advances both trajectories by a forward-Euler step
    and applies the renormalisation rule to their new separation. *)
Lemma lyap_body_traj1 (b dt : R) (s : lyap_state) :
  traj1 (lyap_body b dt s) = euler_step b dt (traj1 s).
Proof.
  unfold lyap_body, traj1, euler_step, thomas. cbv zeta.
  destruct (Rlt_dec 0 _); reflexivity.
Qed.

Lemma lyap_body_traj2 (b dt : R) (s : lyap_state) :
  traj2 (lyap_body b dt s) = euler_step b dt (traj2 s).
Proof.
  unfold lyap_body, traj2, euler_step, thomas. cbv zeta.
  destruct (Rlt_dec 0 _); reflexivity.
Qed.

Lemma lyap_body_acc (b dt : R) (s : lyap_state) :
  acc_of (lyap_body b dt s)
  = renorm (acc_of s)
      (dist (euler_step b dt (traj1 s)) (euler_step b dt (traj2 s))).
Proof.
  unfold lyap_body, acc_of, renorm, dist, traj1, traj2, euler_step, thomas.
  cbv zeta. destruct (Rlt_dec 0 _); reflexivity.
Qed.

Lemma lyap_loop_acc (count : nat) (b dt : R) (s : lyap_state) :
  acc_of (lyap_loop count b dt s)
  = fold_left renorm (separations count b dt (traj1 s) (traj2 s)) (acc_of s).
Proof.
  revert s. induction count as [| count IH]; intro s; [reflexivity | ].
  cbn [lyap_loop separations fold_left].
  rewrite IH, lyap_body_traj1, lyap_body_traj2, lyap_body_acc. reflexivity.
Qed.

Lemma lyap_result_acc (dt : R) (s : lyap_state) :
  lyap_result dt s
  = let '(_, total, events) := acc_of s in
    match events with
    | O => 0
    | S _ => total / (INR events * dt)
    end.
Proof.
  unfold lyap_result, acc_of. destruct (n s); reflexivity.
Qed.

Lemma lyap_init_traj (eps : R) :
  traj1 (lyap_init eps) = (1, 1, 1) /\ traj2 (lyap_init eps) = (1 + eps, 1, 1).
Proof. split; reflexivity. Qed.

Lemma lyap_init_acc (eps : R) :
  acc_of (lyap_init eps) = (dist (1, 1, 1) (1 + eps, 1, 1), 0, O).
Proof. reflexivity. Qed.

Lemma lyap_steps_ok (T dt : R) :
  dt <> 0 -> lyap_steps T dt = Ok (Z.to_nat (Int_part (T / dt))).
Proof.
  intro H. unfold lyap_steps. destruct (Req_dec_T dt 0); [contradiction | ].
  now rewrite to_nat_trunc_floor.
Qed.

Lemma estimate_refines (eps b T dt : R) :
  dt <> 0 -> lyapunov_estimate_eps eps b T dt = Ok (spec_estimate eps b T dt).
Proof.
  intro Hdt. unfold lyapunov_estimate_eps. rewrite (lyap_steps_ok T dt Hdt).
  cbn [bind]. f_equal. rewrite lyap_result_acc, lyap_loop_acc.
  destruct (lyap_init_traj eps) as [-> ->]. rewrite lyap_init_acc.
  reflexivity.
Qed.

(** *** No perturbation, no event *)

Lemma dist_same (p : state) : dist p p = 0.
Proof.
  destruct p as [[px py] pz]. unfold dist.
  replace ((px - px) ^ 2 + (py - py) ^ 2 + (pz - pz) ^ 2) with 0 by ring.
  apply sqrt_0.
Qed.

Lemma renorm_zero (acc : R * R * nat) : renorm acc 0 = acc.
Proof.
  destruct acc as [[d_ref total] events]. unfold renorm.
  destruct (Rlt_dec 0 0); [lra | reflexivity].
Qed.

Lemma renorm_same_start (count : nat) (b dt : R) (p : state) (acc : R * R * nat) :
  fold_left renorm (separations count b dt p p) acc = acc.
Proof.
  revert p. induction count as [| count IH]; intro p; [reflexivity | ].
  cbn [separations fold_left]. rewrite dist_same, renorm_zero. apply IH.
Qed.

Lemma spec_estimate_no_perturbation (b T dt : R) : spec_estimate 0 b T dt = 0.
Proof.
  unfold spec_estimate, renorm_all. cbv zeta.
  replace (1 + 0) with 1 by ring. now rewrite renorm_same_start.
Qed.

(** C5.  For a step size other than zero, [lyapunov_estimate] makes
    floor(T/dt) passes, each advancing two forward-Euler trajectories; at a
    pass with separation d > 0 it adds ln(d / d_reference) to the sum, sets
    d_reference to d and counts one event; it returns sum / (events * dt)
    when an event fired and 0 otherwise ([spec_estimate] is this
    description).  With zero initial perturbation the result is exactly 0. *)
Theorem lyapunov_estimate_spec :
  forall b T dt : R, dt <> 0 ->
    lyapunov_estimate b T dt = Ok (spec_estimate eps b T dt)
    /\ (forall eps' : R,
          lyapunov_estimate_eps eps' b T dt = Ok (spec_estimate eps' b T dt))
    /\ (forall (acc : R * R * nat) (d : R),
          let '(d_ref, total, events) := acc in
          (0 < d -> renorm acc d = (d, total + ln (d / d_ref), S events))
          /\ (d <= 0 -> renorm acc d = acc))
    /\ lyapunov_estimate_eps 0 b T dt = Ok 0.
Proof.
  intros b T dt Hdt. split; [now apply estimate_refines | ].
  split; [intro; now apply estimate_refines | ]. split.
  - intros [[d_ref total] events] d. unfold renorm.
    destruct (Rlt_dec 0 d); split; intro; try reflexivity; lra.
  - rewrite estimate_refines by assumption.
    now rewrite spec_estimate_no_perturbation.
Qed.

Lemma lyapunov_estimate_spec_witness :
  lyapunov_estimate_eps 0 0.19 200 0.01 = Ok 0.
Proof.
  apply (lyapunov_estimate_spec 0.19 200 0.01). lra.
Defined.

End LyapunovFacts.

(** ** Telescoping of the renormalised sum *)

Module TelescopeFacts.
Import Script LyapunovFacts.

Lemma ln_quotient (a c : R) : 0 < a -> 0 < c -> ln (a / c) = ln a - ln c.
Proof.
  intros Ha Hc. unfold Rdiv.
  rewrite ln_mult by (try apply Rinv_0_lt_compat; assumption).
  rewrite ln_Rinv by assumption. ring.
Qed.

Lemma events_of_cons (d : R) (ds : list R) :
  events_of (d :: ds)
  = if Rlt_dec 0 d then S (events_of ds) else events_of ds.
Proof.
  unfold events_of. cbn [filter]. destruct (Rlt_dec 0 d); reflexivity.
Qed.

(** Started from a positive reference, the fold keeps the reference
    positive, ends on the last positive separation, and its sum has grown by
    the logarithm of the ratio of the last reference to the first. *)
Lemma renorm_telescopes (ds : list R) (d total : R) (events : nat) :
  0 < d ->
  fold_left renorm ds (d, total, events)
  = (last_positive ds d, total + ln (last_positive ds d / d),
     (events + events_of ds)%nat)
  /\ 0 < last_positive ds d.
Proof.
  revert d total events.
  induction ds as [| d1 ds IH]; intros d total events Hd.
  - cbn [fold_left]. unfold last_positive, events_of. cbn [fold_left filter List.length].
    split; [ | assumption].
    f_equal; [f_equal | lia].
    unfold Rdiv. rewrite Rinv_r by lra. rewrite ln_1. ring.
  - cbn [fold_left]. unfold last_positive. cbn [fold_left].
    fold (last_positive ds (if Rlt_dec 0 d1 then d1 else d)).
    rewrite events_of_cons. unfold renorm at 2.
    destruct (Rlt_dec 0 d1) as [Hpos | Hnot].
    + destruct (IH d1 (total + ln (d1 / d)) (S events) Hpos) as [-> Hlast].
      split; [ | assumption].
      f_equal; [f_equal | lia].
      rewrite (ln_quotient d1 d), (ln_quotient (last_positive ds d1) d1),
        (ln_quotient (last_positive ds d1) d) by assumption.
      ring.
    + destruct (IH d total events Hd) as [-> Hlast].
      split; [reflexivity | assumption].
Qed.

Lemma last_positive_In (ds : list R) (d : R) :
  (0 < events_of ds)%nat -> In (last_positive ds d) ds.
Proof.
  revert d. induction ds as [| d1 ds IH]; intros d Hev.
  - unfold events_of in Hev. cbn in Hev. lia.
  - unfold last_positive. cbn [fold_left].
    fold (last_positive ds (if Rlt_dec 0 d1 then d1 else d)).
    rewrite events_of_cons in Hev.
    destruct (Nat.eq_dec (events_of ds) 0) as [Hzero | Hsome].
    + destruct (Rlt_dec 0 d1) as [Hpos | Hnot]; [ | lia].
      left. clear IH Hev.
      assert (Hstay : forall l a, events_of l = O -> last_positive l a = a).
      { induction l as [| x l IHl]; intros a Hl; [reflexivity | ].
        unfold last_positive. cbn [fold_left].
        fold (last_positive l (if Rlt_dec 0 x then x else a)).
        rewrite events_of_cons in Hl.
        destruct (Rlt_dec 0 x); [discriminate | now apply IHl]. }
      symmetry. now apply Hstay.
    + right. apply IH. lia.
Qed.

Lemma events_same_start (count : nat) (b dt : R) (p : state) :
  events_of (separations count b dt p p) = O.
Proof.
  revert p. induction count as [| count IH]; intro p; [reflexivity | ].
  cbn [separations]. rewrite events_of_cons, dist_same.
  destruct (Rlt_dec 0 0); [lra | apply IH].
Qed.

(** The initial separation is the magnitude of the perturbation. *)
Lemma dist_init (eps : R) : dist (1, 1, 1) (1 + eps, 1, 1) = Rabs eps.
Proof.
  unfold dist.
  replace ((1 + eps - 1) ^ 2 + (1 - 1) ^ 2 + (1 - 1) ^ 2) with (Rsqr eps)
    by (unfold Rsqr; ring).
  apply sqrt_Rsqr_abs.
Qed.

Lemma dist_pos_first (p q : state) :
  fst (fst p) <> fst (fst q) -> 0 < dist p q.
Proof.
  destruct p as [[px py] pz], q as [[qx qy] qz]. cbn [fst]. intro Hne.
  unfold dist. apply sqrt_lt_R0.
  assert (0 < (qx - px) ^ 2).
  { rewrite <- Rsqr_pow2. apply Rsqr_pos_lt. lra. }
  pose proof (pow2_ge_0 (qy - py)). pose proof (pow2_ge_0 (qz - pz)). lra.
Qed.

(** C10.  In every run of the estimator in which at least one event fires,
    the accumulated sum equals ln(d_last / d_initial), with d_last the
    separation at the last fired event (a separation of the run, strictly
    positive) and d_initial = |eps| the initial perturbation magnitude; the
    reference separation ends at d_last, the count is the number of positive
    separations, and the returned estimate is
    ln(d_last / d_initial) / (events * dt). *)
Theorem lyapunov_sum_telescopes :
  forall eps' b T dt : R,
    dt <> 0 ->
    let count := Z.to_nat (Int_part (T / dt)) in
    let ds := separations count b dt (1, 1, 1) (1 + eps', 1, 1) in
    let d_last := last_positive ds (Rabs eps') in
    let final := lyap_loop count b dt (lyap_init eps') in
    (0 < events_of ds)%nat ->
    d_sum final = ln (d_last / Rabs eps')
    /\ d0 final = d_last
    /\ n final = events_of ds
    /\ In d_last ds
    /\ 0 < d_last
    /\ lyapunov_estimate_eps eps' b T dt
       = Ok (ln (d_last / Rabs eps') / (INR (events_of ds) * dt)).
Proof.
  intros eps' b T dt Hdt count ds d_last final Hev.
  assert (Heps : eps' <> 0).
  { intro H0. subst eps'. unfold ds in Hev. revert Hev.
    replace (1 + 0) with 1 by ring. rewrite events_same_start. lia. }
  assert (Hinit : 0 < Rabs eps') by now apply Rabs_pos_lt.
  destruct (renorm_telescopes ds (Rabs eps') 0 O Hinit) as [Hfold Hlast].
  fold d_last in Hfold, Hlast.
  assert (Hacc : acc_of final = (d_last, 0 + ln (d_last / Rabs eps'), events_of ds)).
  { unfold final. rewrite lyap_loop_acc.
    destruct (lyap_init_traj eps') as [-> ->].
    rewrite lyap_init_acc, dist_init. fold ds. rewrite Hfold. reflexivity. }
  unfold acc_of in Hacc. injection Hacc as Hd0 Hsum Hn.
  rewrite Rplus_0_l in Hsum.
  repeat split; try assumption.
  - now apply last_positive_In.
  - unfold lyapunov_estimate_eps. rewrite (lyap_steps_ok T dt Hdt). cbn [bind].
    fold count final. unfold lyap_result. rewrite Hn, Hsum.
    destruct (events_of ds) as [| k]; [lia | reflexivity].
Qed.

(** X1.  With a non-zero perturbation the reference separation is strictly
    positive after any number of passes, so the quotient d / d0 taken when
    an event fires never has a zero divisor. *)
Theorem lyap_reference_stays_positive :
  forall (eps' b dt : R) (count : nat),
    eps' <> 0 -> 0 < d0 (lyap_loop count b dt (lyap_init eps')).
Proof.
  intros eps' b dt count Heps.
  assert (Hinit : 0 < Rabs eps') by now apply Rabs_pos_lt.
  pose proof (lyap_loop_acc count b dt (lyap_init eps')) as Hacc.
  destruct (lyap_init_traj eps') as [H1 H2]. rewrite H1, H2 in Hacc.
  rewrite lyap_init_acc, dist_init in Hacc.
  destruct (renorm_telescopes
              (separations count b dt (1, 1, 1) (1 + eps', 1, 1))
              (Rabs eps') 0 O Hinit) as [Hfold Hlast].
  rewrite Hfold in Hacc. unfold acc_of in Hacc. injection Hacc as Hd0 _ _.
  now rewrite Hd0.
Qed.

Lemma lyap_reference_stays_positive_witness :
  0 < d0 (lyap_loop 3 0.19 0.01 (lyap_init eps)).
Proof.
  apply lyap_reference_stays_positive. unfold eps. lra.
Defined.

(** One pass at b = 0, T = dt = 1 with the source's perturbation: the two
    trajectories stay [eps] apart in the first coordinate, so the event
    fires. *)
Lemma one_pass_fires :
  lt 0 (events_of
          (separations (Z.to_nat (Int_part (1 / 1))) 0 1 (1, 1, 1) (1 + eps, 1, 1))).
Proof.
  replace (1 / 1) with (IZR 1) by field. rewrite Int_part_IZR.
  change (Z.to_nat 1) with 1%nat. cbn [separations].
  rewrite events_of_cons.
  destruct (Rlt_dec 0 _) as [_ | Hnot]; [lia | ].
  exfalso. apply Hnot. apply dist_pos_first.
  unfold euler_step, thomas, eps. cbn [fst]. lra.
Qed.

Lemma lyapunov_sum_telescopes_witness :
  let ds := separations (Z.to_nat (Int_part (1 / 1))) 0 1 (1, 1, 1) (1 + eps, 1, 1) in
  d_sum (lyap_loop (Z.to_nat (Int_part (1 / 1))) 0 1 (lyap_init eps))
  = ln (last_positive ds (Rabs eps) / Rabs eps).
Proof.
  intro ds.
  apply (lyapunov_sum_telescopes eps 0 1 1); [lra | exact one_pass_fires].
Defined.

End TelescopeFacts.

(** ** The rhodonea fit and its reported error *)

Lemma trunc_nonneg (r : R) : 0 <= r -> trunc r = Int_part r.
Proof.
  intro H. unfold trunc. destruct (Rle_dec 0 r); [reflexivity | contradiction].
Qed.

(** Truncating a quotient of non-negative integers is integer division. *)
Lemma trunc_quotient (a c : Z) :
  (0 <= a)%Z -> (0 < c)%Z -> trunc (IZR a / IZR c) = (a / c)%Z.
Proof.
  intros Ha Hc.
  assert (Hc' : 0 < IZR c) by now apply IZR_lt.
  assert (Ha' : 0 <= IZR a) by now apply IZR_le.
  rewrite trunc_nonneg by (apply Rmult_le_pos; [ | left; apply Rinv_0_lt_compat]; assumption).
  symmetry. apply Int_part_spec.
  pose proof (Z.div_mod a c ltac:(lia)) as Hdm.
  pose proof (Z.mod_pos_bound a c Hc) as [Hlo Hhi].
  assert (Heq : IZR a = IZR c * IZR (a / c) + IZR (a mod c)).
  { rewrite <- mult_IZR, <- plus_IZR. now f_equal. }
  apply IZR_le in Hlo. apply IZR_lt in Hhi.
  assert (Hquot : IZR a / IZR c = IZR (a / c) + IZR (a mod c) / IZR c).
  { rewrite Heq at 1. field. lra. }
  assert (0 <= IZR (a mod c) / IZR c < 1).
  { split.
    - apply Rmult_le_pos; [ | left; apply Rinv_0_lt_compat]; assumption.
    - apply (Rmult_lt_reg_r (IZR c)); [assumption | ].
      unfold Rdiv. rewrite Rmult_assoc, Rinv_l by lra. lra. }
  lra.
Qed.

Lemma zip_with_map_second {A B B' C : Type}
  (f : A -> B' -> C) (g : B -> B') (la : list A) (lb : list B) :
  zip_with f la (map g lb) = zip_with (fun a b' => f a (g b')) la lb.
Proof.
  revert lb. induction la as [| a la IH]; intros [| b' lb]; simpl;
    try reflexivity. now rewrite IH.
Qed.

Lemma length_zip_with {A B C : Type} (f : A -> B -> C) (la : list A) (lb : list B) :
  List.length la = List.length lb ->
  List.length (zip_with f la lb) = List.length la.
Proof.
  revert lb. induction la as [| a la IH]; intros [| b' lb] H; simpl;
    try reflexivity; try discriminate. f_equal. apply IH. now injection H.
Qed.

Module FitFacts.
Import Script.

Example even_index_11_3 :
  map (even_index 11 3) (seq 0 3) = [0; 5; 10]%Z.
Proof. reflexivity. Qed.

Example even_index_10_4 :
  map (even_index 10 4) (seq 0 4) = [0; 3; 6; 9]%Z.
Proof. reflexivity. Qed.

Lemma subsample_indices_closed (len num : nat) :
  (1 <= len)%nat -> (2 <= num)%nat ->
  subsample_indices len num = map (even_index len num) (seq 0 num).
Proof.
  intros Hlen Hnum. unfold subsample_indices, astype_int, linspace.
  rewrite map_map. apply map_ext. intro i. unfold even_index.
  rewrite <- trunc_quotient by nia. f_equal.
  rewrite mult_IZR, !INR_IZR_INZ.
  replace (Z.of_nat (num - 1)) with (Z.of_nat num - 1)%Z by lia.
  assert (IZR (Z.of_nat num - 1) <> 0).
  { apply not_0_IZR. lia. }
  field. assumption.
Qed.

Lemma even_index_bounds (len num i j : nat) :
  (1 <= len)%nat -> (2 <= num)%nat -> (i <= j < num)%nat ->
  (0 <= even_index len num i <= even_index len num j)%Z
  /\ (even_index len num j <= Z.of_nat len - 1)%Z.
Proof.
  intros Hlen Hnum Hij. unfold even_index. repeat split.
  - apply Z.div_pos; nia.
  - apply Z.div_le_mono; nia.
  - apply Z.div_le_upper_bound; nia.
Qed.

Lemma even_index_ends (len num : nat) :
  (1 <= len)%nat -> (2 <= num)%nat ->
  even_index len num 0 = 0%Z
  /\ even_index len num (num - 1) = (Z.of_nat len - 1)%Z.
Proof.
  intros Hlen Hnum. unfold even_index. split.
  - reflexivity.
  - replace (Z.of_nat (num - 1)) with (Z.of_nat num - 1)%Z by lia.
    rewrite Z.mul_comm. apply Z.div_mul. lia.
Qed.

(** Consecutive positions differ by the same stride, up to one. *)
Lemma even_index_stride (len num i : nat) :
  (1 <= len)%nat -> (2 <= num)%nat ->
  let stride := ((Z.of_nat len - 1) / (Z.of_nat num - 1))%Z in
  (stride <= even_index len num (S i) - even_index len num i <= stride + 1)%Z.
Proof.
  intros Hlen Hnum stride. unfold even_index, stride.
  set (c := (Z.of_nat len - 1)%Z). set (d := (Z.of_nat num - 1)%Z).
  assert (Hd : (0 < d)%Z) by (unfold d; lia).
  replace (Z.of_nat (S i) * c)%Z with (Z.of_nat i * c + c)%Z by lia.
  set (a := (Z.of_nat i * c)%Z).
  pose proof (Z.div_mod a d ltac:(lia)) as Ha.
  pose proof (Z.div_mod c d ltac:(lia)) as Hc.
  pose proof (Z.div_mod (a + c) d ltac:(lia)) as Hs.
  pose proof (Z.mod_pos_bound a d Hd).
  pose proof (Z.mod_pos_bound c d Hd).
  pose proof (Z.mod_pos_bound (a + c) d Hd).
  nia.
Qed.

(** Positions inside the array are read without wrap-around or error. *)
Lemma np_index_in_range (arr : list R) (i : Z) :
  (0 <= i < Z.of_nat (List.length arr))%Z ->
  np_index arr i = Ok (nth (Z.to_nat i) arr 0).
Proof.
  intros [Hlo Hhi]. unfold np_index. cbv zeta.
  destruct (Z.ltb_spec i 0) as [Hneg | _]; [lia | ].
  destruct (Z.leb_spec 0 i) as [_ | Hneg]; [ | lia].
  destruct (Z.ltb_spec i (Z.of_nat (List.length arr))) as [_ | Hbig]; [ | lia].
  cbn [andb].
  destruct (nth_error arr (Z.to_nat i)) as [v | ] eqn:Hnth.
  - f_equal. symmetry. now apply nth_error_nth.
  - apply nth_error_None in Hnth. lia.
Qed.

Lemma np_take_in_range (arr : list R) (idx : list Z) :
  Forall (fun i => (0 <= i < Z.of_nat (List.length arr))%Z) idx ->
  np_take arr idx = Ok (map (fun i => nth (Z.to_nat i) arr 0) idx).
Proof.
  induction 1 as [| i idx Hi _ IH]; [reflexivity | ].
  cbn [np_take map]. rewrite (np_index_in_range arr i Hi), IH. reflexivity.
Qed.

Lemma n_fit_value : Z.of_nat n_fit = 8000%Z.
Proof. unfold n_fit. now rewrite Z2Nat.id by lia. Qed.

Lemma fit_indices_in_range (theta : list R) :
  (1 <= List.length theta)%nat ->
  Forall (fun i => (0 <= i < Z.of_nat (List.length theta))%Z) (fit_indices theta).
Proof.
  intro Hlen. pose proof n_fit_value as Hn.
  unfold fit_indices. rewrite subsample_indices_closed by lia.
  apply Forall_forall. intros i Hi. apply in_map_iff in Hi.
  destruct Hi as (j & <- & Hj). apply in_seq in Hj.
  destruct (even_index_bounds (List.length theta) n_fit j j) as [[H0 _] H1]; lia.
Qed.

Section Fit.

Variable curve_fit :
  (R -> R -> R -> R -> R -> R) -> list R -> list R -> params -> exc params.

Lemma fit_popt_subsample (theta r : list R) :
  (1 <= List.length theta)%nat -> List.length r = List.length theta ->
  fit_popt curve_fit theta r
  = curve_fit rhodonea (subsample theta (fit_indices theta))
      (subsample r (fit_indices theta)) p0.
Proof.
  intros Hlen Hr. unfold fit_popt. cbv zeta.
  pose proof (fit_indices_in_range theta Hlen) as Hrange.
  rewrite (np_take_in_range theta _ Hrange). cbn [bind].
  rewrite <- Hr in Hrange. rewrite (np_take_in_range r _ Hrange). reflexivity.
Qed.

Lemma fit_E_flower_full (theta r : list R) (popt : params) :
  List.length r = List.length theta ->
  fit_popt curve_fit theta r = Ok popt ->
  fit_E_flower curve_fit theta r
  = Ok (sqrt (np_sum (residuals theta r popt) / INR (List.length theta)))
  /\ List.length (residuals theta r popt) = List.length theta.
Proof.
  intros Hr Hfit. unfold fit_E_flower. rewrite Hfit. cbn [bind].
  destruct popt as [[[k m] phi] a].
  unfold rms_error, np_mean, rhodonea_curve, residuals, rhodonea.
  rewrite zip_with_map_second, length_zip_with by assumption.
  rewrite Hr. split; reflexivity.
Qed.

End Fit.

(** C9.  The fit is run on an index subset that depends only on the number
    of samples and is evenly spaced (position i of 8000 is
    floor(i (N - 1) / 7999): from 0 to N - 1, non-decreasing, consecutive
    positions a constant stride apart up to one), while the reported error
    is sqrt(mean((r - r_model)^2)) with the fitted parameters over all N
    samples. *)
Theorem fit_on_subset_error_on_all :
  forall (curve_fit :
            (R -> R -> R -> R -> R -> R) -> list R -> list R -> params -> exc params)
         (theta r : list R),
    (1 <= List.length theta)%nat ->
    List.length r = List.length theta ->
    let N := List.length theta in
    let idx := fit_indices theta in
    idx = map (even_index N n_fit) (seq 0 n_fit)
    /\ Z.of_nat (List.length idx) = 8000%Z
    /\ even_index N n_fit 0 = 0%Z
    /\ even_index N n_fit (n_fit - 1) = (Z.of_nat N - 1)%Z
    /\ (forall i j : nat, (i <= j < n_fit)%nat ->
          (0 <= even_index N n_fit i <= even_index N n_fit j)%Z
          /\ (even_index N n_fit j <= Z.of_nat N - 1)%Z)
    /\ (forall i : nat,
          ((Z.of_nat N - 1) / 7999
           <= even_index N n_fit (S i) - even_index N n_fit i
           <= (Z.of_nat N - 1) / 7999 + 1)%Z)
    /\ fit_popt curve_fit theta r
       = curve_fit rhodonea (subsample theta idx) (subsample r idx) p0
    /\ (forall popt : params,
          fit_popt curve_fit theta r = Ok popt ->
          fit_E_flower curve_fit theta r
          = Ok (sqrt (np_sum (residuals theta r popt) / INR N))
          /\ List.length (residuals theta r popt) = N).
Proof.
  intros curve_fit theta r Hlen Hr N idx.
  pose proof n_fit_value as Hn.
  assert (Hnum : (2 <= n_fit)%nat) by lia.
  assert (Hidx : idx = map (even_index N n_fit) (seq 0 n_fit)).
  { unfold idx, fit_indices. now apply subsample_indices_closed. }
  split; [exact Hidx | ].
  split; [rewrite Hidx, length_map, length_seq; exact Hn | ].
  destruct (even_index_ends N n_fit Hlen Hnum) as [H0 Hend].
  split; [exact H0 | ]. split; [exact Hend | ].
  split; [intros i j Hij; now apply even_index_bounds | ].
  split.
  { intro i. pose proof (even_index_stride N n_fit i Hlen Hnum) as Hs.
    cbv zeta in Hs. rewrite Hn in Hs. exact Hs. }
  split; [now apply fit_popt_subsample | ].
  intros popt Hfit. now apply fit_E_flower_full.
Qed.

Lemma fit_on_subset_error_on_all_witness :
  fit_popt (fun _ _ _ p => Ok p) [0; PI] [1; 1]
  = Ok p0.
Proof.
  destruct (fit_on_subset_error_on_all (fun _ _ _ p => Ok p) [0; PI] [1; 1])
    as (_ & _ & _ & _ & _ & _ & Hfit & _).
  - cbn [List.length]. lia.
  - reflexivity.
  - exact Hfit.
Defined.

End FitFacts.

(** ** Symmetries of the Thomas system and of the Euler loop *)

Module DynamicsFacts.
Import Script LyapunovFacts.

(** Rotation of the coordinates: (x, y, z) to (y, z, x). *)
Lemma thomas_cyclic (t b x y z : R) :
  thomas t (y, z, x) b
  = (let '(dx, dy, dz) := thomas t (x, y, z) b in (dy, dz, dx)).
Proof. reflexivity. Qed.

Lemma thomas_diagonal (t b u : R) :
  thomas t (u, u, u) b = (sin u - b * u, sin u - b * u, sin u - b * u).
Proof. reflexivity. Qed.

Lemma euler_step_diagonal (b dt u : R) :
  euler_step b dt (u, u, u)
  = (u + (sin u - b * u) * dt, u + (sin u - b * u) * dt, u + (sin u - b * u) * dt).
Proof. reflexivity. Qed.

(** X3.  The vector field [thomas] vanishes at the origin for every b, is
    odd, commutes with the rotation (x, y, z) -> (y, z, x) of the coordinates,
    and maps the diagonal x = y = z into itself; it does not depend on t. *)
Theorem thomas_symmetries :
  forall t b x y z : R,
    thomas t (0, 0, 0) b = (0, 0, 0)
    /\ thomas t (- x, - y, - z) b
       = (let '(dx, dy, dz) := thomas t (x, y, z) b in (- dx, - dy, - dz))
    /\ thomas t (y, z, x) b
       = (let '(dx, dy, dz) := thomas t (x, y, z) b in (dy, dz, dx))
    /\ (exists v : R, thomas t (x, x, x) b = (v, v, v))
    /\ (forall t' : R, thomas t' (x, y, z) b = thomas t (x, y, z) b).
Proof.
  intros t b x y z. split; [ | split; [ | split; [ | split]]].
  - unfold thomas. rewrite sin_0. f_equal; [f_equal | ]; ring.
  - unfold thomas. rewrite !sin_neg. f_equal; [f_equal | ]; ring.
  - apply thomas_cyclic.
  - exists (sin x - b * x). apply thomas_diagonal.
  - reflexivity.
Qed.

Lemma euler_step_keeps_diagonal (b dt : R) (st : state) :
  on_diagonal st -> on_diagonal (euler_step b dt st).
Proof.
  destruct st as [[x y] z]. intros [-> ->]. rewrite euler_step_diagonal.
  split; reflexivity.
Qed.

Lemma lyap_loop_traj1 (count : nat) (b dt : R) (s : lyap_state) :
  traj1 (lyap_loop count b dt s) = Nat.iter count (euler_step b dt) (traj1 s).
Proof.
  revert s. induction count as [| count IH]; intro s; [reflexivity | ].
  cbn [lyap_loop]. rewrite IH, lyap_body_traj1.
  symmetry. apply Nat.iter_succ_r.
Qed.

Lemma lyap_loop_traj2 (count : nat) (b dt : R) (s : lyap_state) :
  traj2 (lyap_loop count b dt s) = Nat.iter count (euler_step b dt) (traj2 s).
Proof.
  revert s. induction count as [| count IH]; intro s; [reflexivity | ].
  cbn [lyap_loop]. rewrite IH, lyap_body_traj2.
  symmetry. apply Nat.iter_succ_r.
Qed.

(** X4.  In [lyapunov_estimate] the two trajectories do not influence each
    other (each is the forward-Euler iteration of its own start), and the
    reference trajectory, started at (1, 1, 1), stays on the diagonal
    x1 = y1 = z1 after any number of passes, whatever b, dt and the
    perturbation. *)
Theorem lyap_reference_on_diagonal :
  forall (eps' b dt : R) (count : nat),
    let s := lyap_loop count b dt (lyap_init eps') in
    traj1 s = Nat.iter count (euler_step b dt) (1, 1, 1)
    /\ traj2 s = Nat.iter count (euler_step b dt) (1 + eps', 1, 1)
    /\ x1 s = y1 s
    /\ y1 s = z1 s.
Proof.
  intros eps' b dt count s.
  assert (H1 : traj1 s = Nat.iter count (euler_step b dt) (1, 1, 1)).
  { unfold s. now rewrite lyap_loop_traj1. }
  assert (H2 : traj2 s = Nat.iter count (euler_step b dt) (1 + eps', 1, 1)).
  { unfold s. now rewrite lyap_loop_traj2. }
  split; [exact H1 | ]. split; [exact H2 | ].
  assert (Hdiag : on_diagonal (traj1 s)).
  { rewrite H1. clear. induction count as [| count IH].
    - split; reflexivity.
    - cbn [Nat.iter nat_rect]. now apply euler_step_keeps_diagonal. }
  exact Hdiag.
Qed.

Lemma lyap_body_events (b dt : R) (s : lyap_state) :
  (n s <= n (lyap_body b dt s) <= S (n s))%nat.
Proof.
  unfold lyap_body. cbv zeta. destruct (Rlt_dec 0 _); cbn [n]; lia.
Qed.

Lemma lyap_loop_events (count : nat) (b dt : R) (s : lyap_state) :
  (n s <= n (lyap_loop count b dt s) <= n s + count)%nat.
Proof.
  revert s. induction count as [| count IH]; intro s; cbn [lyap_loop]; [lia | ].
  pose proof (lyap_body_events b dt s). pose proof (IH (lyap_body b dt s)). lia.
Qed.

Lemma Int_part_below_one (r : R) : r < 1 -> Z.to_nat (Int_part r) = O.
Proof.
  intro H. destruct (base_Int_part r) as [Hup _].
  assert (Hlt : IZR (Int_part r) < IZR 1) by lra.
  apply lt_IZR in Hlt. lia.
Qed.

(** X5.  Edge behaviour of [lyapunov_estimate]: a zero step size raises
    ZeroDivisionError; when T/dt is below 1 (in particular when it is
    negative) the loop makes no pass and the estimate is 0; and the number
    of renormalisation events never exceeds the number of passes. *)
Theorem lyapunov_estimate_edges :
  forall b T dt : R,
    lyapunov_estimate b T 0 = Raise ZeroDivisionError
    /\ (dt <> 0 -> T / dt < 1 -> lyapunov_estimate b T dt = Ok 0)
    /\ (forall count : nat,
          (n (lyap_loop count b dt (lyap_init eps)) <= count)%nat).
Proof.
  intros b T dt. split; [ | split].
  - unfold lyapunov_estimate, lyapunov_estimate_eps, lyap_steps.
    destruct (Req_dec_T 0 0) as [_ | Hne]; [reflexivity | now contradiction Hne].
  - intros Hdt Hsmall.
    unfold lyapunov_estimate, lyapunov_estimate_eps.
    rewrite (lyap_steps_ok T dt Hdt), (Int_part_below_one _ Hsmall).
    reflexivity.
  - intro count. pose proof (lyap_loop_events count b dt (lyap_init eps)) as H.
    cbn [lyap_init n] in H. lia.
Qed.

Lemma lyapunov_estimate_edges_witness :
  lyapunov_estimate 0.19 1 2 = Ok 0.
Proof.
  apply (lyapunov_estimate_edges 0.19 1 2); lra.
Defined.

End DynamicsFacts.

(** ** The planar projection *)

Module PolarFacts.
Import Script.

Lemma hypot_factor (x y : R) :
  x <> 0 -> sqrt (x ^ 2 + y ^ 2) = Rabs x * sqrt (1 + Rsqr (y / x)).
Proof.
  intro Hx.
  replace (x ^ 2 + y ^ 2) with (Rsqr x * (1 + Rsqr (y / x)))
    by (unfold Rsqr; field; assumption).
  rewrite sqrt_mult.
  - now rewrite sqrt_Rsqr_abs.
  - apply Rle_0_sqr.
  - pose proof (Rle_0_sqr (y / x)). lra.
Qed.

Lemma sqrt_one_plus_sqr_pos (u : R) : 0 < sqrt (1 + Rsqr u).
Proof. apply sqrt_lt_R0. pose proof (Rle_0_sqr u). lra. Qed.

Lemma atan_nonpos (u : R) : u <= 0 -> atan u <= 0.
Proof.
  intros [Hlt | ->]; [ | rewrite atan_0; lra].
  left. rewrite <- atan_0. now apply atan_increasing.
Qed.

Lemma atan_pos (u : R) : 0 < u -> 0 < atan u.
Proof. intro H. rewrite <- atan_0. now apply atan_increasing. Qed.

(** The angle of [arctan2] lies in (-pi, pi]. *)
Lemma arctan2_range (y x : R) : - PI < arctan2 y x <= PI.
Proof.
  pose proof PI_RGT_0 as Hpi. unfold arctan2.
  destruct (Rlt_dec 0 x) as [Hx | Hx].
  { pose proof (atan_bound (y / x)). lra. }
  destruct (Rlt_dec x 0) as [Hx' | Hx'].
  { pose proof (atan_bound (y / x)) as Hb.
    pose proof (Rinv_lt_0_compat x Hx') as Hinv.
    destruct (Rle_dec 0 y) as [Hy | Hy].
    - assert (y / x <= 0) by (unfold Rdiv; nra).
      pose proof (atan_nonpos _ H). lra.
    - assert (0 < y / x) by (unfold Rdiv; nra).
      pose proof (atan_pos _ H). lra. }
  destruct (Rlt_dec 0 y); [lra | ].
  destruct (Rlt_dec y 0); lra.
Qed.

(** Radius and angle give the point back. *)
Lemma polar_inverse (x y : R) :
  sqrt (x ^ 2 + y ^ 2) * cos (arctan2 y x) = x
  /\ sqrt (x ^ 2 + y ^ 2) * sin (arctan2 y x) = y.
Proof.
  unfold arctan2.
  destruct (Rlt_dec 0 x) as [Hx | Hx].
  { assert (Hne : x <> 0) by lra.
    pose proof (sqrt_one_plus_sqr_pos (y / x)) as Hs.
    rewrite (hypot_factor x y Hne), cos_atan, sin_atan, Rabs_right by lra.
    split; field; lra. }
  destruct (Rlt_dec x 0) as [Hx' | Hx'].
  { assert (Hne : x <> 0) by lra.
    pose proof (sqrt_one_plus_sqr_pos (y / x)) as Hs.
    rewrite (hypot_factor x y Hne), Rabs_left by assumption.
    destruct (Rle_dec 0 y) as [Hy | Hy].
    - rewrite neg_cos, neg_sin, cos_atan, sin_atan. split; field; lra.
    - rewrite cos_minus, sin_minus, cos_PI, sin_PI, cos_atan, sin_atan.
      split; field; lra. }
  assert (Hx0 : x = 0) by lra. subst x.
  replace (0 ^ 2 + y ^ 2) with (Rsqr y) by (unfold Rsqr; ring).
  rewrite sqrt_Rsqr_abs.
  destruct (Rlt_dec 0 y) as [Hy | Hy].
  { rewrite cos_PI2, sin_PI2, Rabs_right by lra. split; ring. }
  destruct (Rlt_dec y 0) as [Hy' | Hy'].
  { rewrite cos_neg, sin_neg, cos_PI2, sin_PI2, Rabs_left by assumption.
    split; ring. }
  assert (Hy0 : y = 0) by lra. subst y. rewrite Rabs_R0. split; ring.
Qed.

Lemma polar_lists (xs ys : list R) :
  List.length xs = List.length ys ->
  let rs := zip_with (fun xi yi => sqrt (xi ^ 2 + yi ^ 2)) xs ys in
  let ths := zip_with arctan2 ys xs in
  zip_with (fun ri ti => ri * cos ti) rs ths = xs
  /\ zip_with (fun ri ti => ri * sin ti) rs ths = ys
  /\ Forall (fun ri => 0 <= ri) rs
  /\ Forall (fun ti => - PI < ti <= PI) ths
  /\ List.length rs = List.length xs
  /\ List.length ths = List.length xs.
Proof.
  revert ys. induction xs as [| x xs IH]; intros [| y ys] Hlen;
    try discriminate.
  - cbn. repeat split; constructor.
  - injection Hlen as Hlen. specialize (IH ys Hlen). cbv zeta in IH.
    destruct IH as (Hx & Hy & Hr & Ht & Hlr & Hlt).
    destruct (polar_inverse x y) as [Hcos Hsin].
    cbn [zip_with]. cbv zeta. cbn [zip_with List.length].
    rewrite Hx, Hy, Hcos, Hsin, Hlr, Hlt.
    repeat split; try reflexivity.
    + constructor; [apply sqrt_pos | exact Hr].
    + constructor; [apply arctan2_range | exact Ht].
Qed.

(** X6.  The projection onto the XY plane loses nothing: for coordinate
    arrays of equal length, every radius is non-negative, every angle lies in
    (-pi, pi], there is one polar sample per trajectory sample, and
    r cos(theta), r sin(theta) give the x and y coordinates back. *)
Theorem projection_round_trip :
  forall solve_ivp : solver,
    List.length (x solve_ivp) = List.length (y solve_ivp) ->
    zip_with (fun ri ti => ri * cos ti) (r solve_ivp) (theta solve_ivp)
    = x solve_ivp
    /\ zip_with (fun ri ti => ri * sin ti) (r solve_ivp) (theta solve_ivp)
       = y solve_ivp
    /\ Forall (fun ri => 0 <= ri) (r solve_ivp)
    /\ Forall (fun ti => - PI < ti <= PI) (theta solve_ivp)
    /\ List.length (r solve_ivp) = List.length (x solve_ivp)
    /\ List.length (theta solve_ivp) = List.length (x solve_ivp).
Proof.
  intros solve_ivp Hlen. unfold r, theta.
  exact (polar_lists (x solve_ivp) (y solve_ivp) Hlen).
Qed.

Lemma projection_round_trip_witness :
  zip_with (fun ri ti => ri * cos ti) (r stalled_solver) (theta stalled_solver)
  = x stalled_solver.
Proof.
  apply (projection_round_trip stalled_solver). reflexivity.
Defined.

End PolarFacts.

(** ** The rose-curve model and the script's Flower Index *)

Module ModelFacts.
Import Script.

Lemma py_mul_comm (u v : pyfloat) : py_mul u v = py_mul v u.
Proof.
  destruct u as [| p], v as [| q]; try reflexivity.
  unfold py_mul, lift2. f_equal. ring.
Qed.

(** X7.  The parameters of the rose curve are not identifiable from the
    curve: scaling k and m by a common non-zero factor, negating k together
    with phi, or negating a while shifting phi by pi all leave [rhodonea]
    unchanged; its values never exceed |a| in magnitude.  The radius function
    of a configuration, which uses the product k m, is unchanged when k and
    m are swapped. *)
Theorem rhodonea_aliasing :
  forall theta k m phi a : R,
    (forall c : R, c <> 0 -> m <> 0 ->
       rhodonea theta (c * k) (c * m) phi a = rhodonea theta k m phi a)
    /\ rhodonea theta (- k) m (- phi) a = rhodonea theta k m phi a
    /\ rhodonea theta k m (phi + PI) (- a) = rhodonea theta k m phi a
    /\ Rabs (rhodonea theta k m phi a) <= Rabs a
    /\ (forall (cfg cfg' : Interface.ThomasFlowerConfig) (t : pyfloat),
          Interface.rhodonea_k cfg' = Interface.rhodonea_m cfg ->
          Interface.rhodonea_m cfg' = Interface.rhodonea_k cfg ->
          Interface.rhodonea_phi cfg' = Interface.rhodonea_phi cfg ->
          Interface.rhodonea_a cfg' = Interface.rhodonea_a cfg ->
          Interface.rhodonea_r cfg' t = Interface.rhodonea_r cfg t).
Proof.
  intros theta k m phi a. unfold rhodonea.
  split; [ | split; [ | split; [ | split]]].
  - intros c Hc Hm. do 2 f_equal. f_equal. field. split; assumption.
  - f_equal. rewrite <- cos_neg. f_equal. unfold Rdiv. ring.
  - rewrite <- Rplus_assoc, neg_cos. ring.
  - rewrite Rabs_mult. rewrite <- (Rmult_1_r (Rabs a)) at 2.
    apply Rmult_le_compat_l; [apply Rabs_pos | ].
    pose proof (COS_bound (k / m * theta + phi)). apply Rabs_le. lra.
  - intros cfg cfg' t Hk Hm Hphi Ha. unfold Interface.rhodonea_r.
    rewrite Hk, Hm, Hphi, Ha.
    now rewrite (py_mul_comm (Interface.rhodonea_m cfg)).
Qed.

Lemma rhodonea_aliasing_witness :
  rhodonea PI (3 * 2) (3 * 5) 0 1 = rhodonea PI 2 5 0 1.
Proof.
  apply (proj1 (rhodonea_aliasing PI 2 5 0 1)); lra.
Defined.

(** X8.  The script's unguarded [FI] and the interface's [flower_index]
    agree on E >= 0, lambda >= 0; for a negative exponent estimate the script
    still reports a number, larger than 1/(1+E), where the interface reports
    not-a-number. *)
Theorem script_FI_versus_flower_index :
  forall E L : R,
    0 <= E ->
    (0 <= L ->
     Interface.flower_index (Some (Fin E)) (Some (Fin L)) = Fin (FI E L))
    /\ (L < 0 ->
        Interface.flower_index (Some (Fin E)) (Some (Fin L)) = NaN
        /\ 1 / (1 + E) < FI E L).
Proof.
  intros E L HE. split.
  - intro HL. now apply InterfaceFacts.flower_index_valid.
  - intro HL. split; [now apply InterfaceFacts.flower_index_negative_r | ].
    unfold FI. rewrite <- (Rmult_1_r (1 / (1 + E))) at 1.
    apply Rmult_lt_compat_l; [apply Rdiv_lt_0_compat; lra | ].
    rewrite <- exp_0. apply exp_increasing. lra.
Qed.

Lemma script_FI_versus_flower_index_witness :
  Interface.flower_index (Some (Fin 0)) (Some (Fin (-1))) = NaN
  /\ 1 / (1 + 0) < FI 0 (-1).
Proof.
  apply (script_FI_versus_flower_index 0 (-1)); lra.
Defined.

Lemma fit_indices_empty_head :
  exists rest : list Z, fit_indices [] = 0%Z :: rest.
Proof.
  unfold fit_indices, subsample_indices, astype_int, linspace, n_fit.
  replace 8000%Z with (Z.succ 7999) by reflexivity.
  rewrite Z2Nat.inj_succ by lia. cbn [seq map]. eexists. f_equal.
  replace (0 + INR 0 * ((IZR (Z.of_nat (List.length (@nil R)) - 1) - 0)
                        / INR (S (Z.to_nat 7999) - 1)))
    with (IZR 0) by (cbn [INR]; ring).
  apply trunc_IZR.
Qed.

(** X9.  With no polar samples the fit stops before the optimiser is called:
    the first subsample index is 0, indexing the empty array raises
    IndexError, and neither parameters nor an error value are produced. *)
Theorem fit_of_no_samples_raises :
  forall (curve_fit :
            (R -> R -> R -> R -> R -> R) -> list R -> list R -> params -> exc params)
         (radii : list R),
    fit_popt curve_fit [] radii = Raise IndexError
    /\ fit_E_flower curve_fit [] radii = Raise IndexError.
Proof.
  intros curve_fit radii.
  assert (H : fit_popt curve_fit [] radii = Raise IndexError).
  { unfold fit_popt. cbv zeta.
    destruct fit_indices_empty_head as [rest ->]. reflexivity. }
  split; [exact H | ]. unfold fit_E_flower. now rewrite H.
Qed.

End ModelFacts.

(** ** Export, loading and the command line together *)

Module CliFacts.
Import Interface.

Lemma json_of_optional_inj (u v : option pyfloat) :
  json_of_optional u = json_of_optional v -> u = v.
Proof.
  destruct u, v; cbn; intro H; try discriminate; [ | reflexivity].
  now injection H as ->.
Qed.

(** X10.  The exported record determines the configuration: two
    configurations with the same [to_js_config] document are equal, so the
    export drops no field. *)
Theorem to_js_config_injective :
  forall cfg cfg' : ThomasFlowerConfig,
    to_js_config cfg = to_js_config cfg' -> cfg = cfg'.
Proof.
  intros [] []. unfold to_js_config, seed.
  cbn [id description b dt steps transient_steps seed_x seed_y seed_z
       projection_plane rotation_axis rotation_angle_rad rhodonea_k rhodonea_m
       rhodonea_phi rhodonea_a E_flower lambda_max FI_reported notes map].
  intro H. injection H. intros. subst.
  f_equal; now apply json_of_optional_inj.
Qed.

Lemma to_js_config_injective_witness :
  sample_config 1 2 0 1 = sample_config 1 2 0 1.
Proof.
  apply to_js_config_injective. reflexivity.
Defined.

Section Consistency.

Variable float_of_str : string -> exc pyfloat.
Variable int_of_str : string -> exc Z.
Variable str_of_float : pyfloat -> string.
Variable str_of_int : Z -> string.

Let py_float := py_float float_of_str.
Let optional_float := optional_float float_of_str.
Let _fi := _fi float_of_str.
Let row_to_config := row_to_config float_of_str int_of_str str_of_float str_of_int.
Let load_rows := load_rows float_of_str int_of_str str_of_float str_of_int.
Let load_configs := load_configs float_of_str int_of_str str_of_float str_of_int.
Let main := main float_of_str int_of_str str_of_float str_of_int.

(** What [row_to_config] stores for the two metrics. *)
Lemma row_to_config_metrics (row : Row) (cfg : ThomasFlowerConfig) :
  row_to_config row = Ok cfg ->
  optional_float (row_get row "E_flower") = Ok (E_flower cfg)
  /\ optional_float (row_get row "lambda_max") = Ok (lambda_max cfg).
Proof.
  unfold row_to_config, Interface.row_to_config. cbv zeta. intro H.
  repeat (apply bind_Ok_inv in H; destruct H as (? & ? & H)).
  injection H as <-. cbn [E_flower lambda_max]. split; assumption.
Qed.

(** The value [_fi] computes from the same two cells. *)
Lemma _fi_of_cells (row : Row) (oE oL : option pyfloat) :
  optional_float (row_get row "E_flower") = Ok oE ->
  optional_float (row_get row "lambda_max") = Ok oL ->
  _fi row = flower_index oE oL.
Proof.
  unfold optional_float, Interface.optional_float, _fi, Interface._fi,
    row_getitem, row_get.
  destruct (assoc "E_flower" row) as [cE | ]; cbn [pd_isna negb bind].
  2:{ intros HE _. injection HE as <-. reflexivity. }
  destruct (assoc "lambda_max" row) as [cL | ]; cbn [pd_isna negb bind].
  2:{ intros HE HL. injection HL as <-.
      rewrite InterfaceFacts.flower_index_None_r.
      destruct (Interface.py_float float_of_str (Some cE)); reflexivity. }
  intros HE HL.
  assert (HcE : exists E, Interface.py_float float_of_str (Some cE) = Ok E
                          /\ flower_index oE oL = flower_index (Some E) oL).
  { destruct cE as [[| e] | z | s]; cbn [pd_isna negb bind Interface.py_float] in *.
    - injection HE as <-. exists NaN. split; [reflexivity | ].
      now rewrite InterfaceFacts.flower_index_NaN_l.
    - injection HE as <-. eauto.
    - injection HE as <-. eauto.
    - destruct (float_of_str s) as [E | ]; [ | discriminate].
      injection HE as <-. eauto. }
  destruct HcE as (E & -> & ->). cbn [bind].
  destruct cL as [[| l] | z | s]; cbn [pd_isna negb bind Interface.py_float try_except] in *.
  - injection HL as <-.
    rewrite InterfaceFacts.flower_index_NaN_r.
    symmetry. apply InterfaceFacts.flower_index_None_r.
  - now injection HL as <-.
  - now injection HL as <-.
  - destruct (float_of_str s) as [L | ]; [ | discriminate].
    now injection HL as <-.
Qed.

Lemma load_rows_length (rows : list Row) (acc cfgs : list ThomasFlowerConfig) :
  load_rows rows acc = Ok cfgs ->
  List.length cfgs = (List.length acc + List.length rows)%nat.
Proof.
  revert acc. induction rows as [| row rows IH]; intros acc H.
  - injection H as <-. cbn. lia.
  - unfold load_rows in H. cbn [Interface.load_rows] in H.
    apply bind_Ok_inv in H. destruct H as (cfg & _ & H).
    apply IH in H. rewrite H, length_app. cbn. lia.
Qed.

Lemma main_after_load (args : Namespace) (fs : store) (df : DataFrame)
  (configs : list ThomasFlowerConfig) :
  fs (csv args) = Some df ->
  load_configs fs (csv args) = Ok configs ->
  main args fs
  = Ok {| files :=
            match given (csv_out args) with
            | Some path => to_csv fs path (enrich_frame float_of_str df)
            | None => fs
            end;
          dumped :=
            match given (json_out args) with
            | Some path => Some (path, JList (map to_js_config configs))
            | None => None
            end |}.
Proof.
  intros Hdf Hload. unfold main, Interface.main.
  fold load_configs. rewrite Hload. cbn [bind].
  unfold enrich_csv_with_fi, read_csv. rewrite Hdf.
  destruct (given (csv_out args)); reflexivity.
Qed.

End Consistency.

(** X11.  The two places that compute the Flower Index of a row agree: for
    every row that [load_configs] accepts, [compute_fi] of the loaded
    configuration (the FI_computed of the JSON export) equals the value
    [_fi] puts in the FI_computed column of the enriched table. *)
Theorem compute_fi_agrees_with_enrichment :
  forall float_of_str int_of_str str_of_float str_of_int
         (row : Row) (cfg : ThomasFlowerConfig),
    row_to_config float_of_str int_of_str str_of_float str_of_int row = Ok cfg ->
    compute_fi cfg = _fi float_of_str row.
Proof.
  intros fos ios sof soi row cfg H.
  destruct (row_to_config_metrics fos ios sof soi row cfg H) as [HE HL].
  unfold compute_fi. symmetry. now apply (_fi_of_cells fos row).
Qed.

Lemma compute_fi_agrees_with_enrichment_witness :
  compute_fi good_config
  = _fi (fun _ => Raise ValueError) (combine csv_columns good_cells).
Proof.
  apply (compute_fi_agrees_with_enrichment
           (fun _ => Raise ValueError) (fun _ => Raise ValueError)
           (fun _ => EmptyString) (fun _ => EmptyString)).
  apply LoaderFacts.good_row_converts.
Defined.

(** X13.  [main] loads before it writes.  When a row fails to load, the run
    raises that error and leaves no output at all, although enrichment alone
    accepts the same table; when every row loads, the table is enriched only
    if a non-empty [--csv_out] was given, the JSON document is produced only
    if a non-empty [--json_out] was given, it holds one record per row, and
    with neither option the files are left as they were. *)
Theorem main_loads_before_writing :
  forall float_of_str int_of_str str_of_float str_of_int
         (args : Namespace) (fs : store) (df : DataFrame),
    fs (csv args) = Some df ->
    (forall e : exn,
       load_configs float_of_str int_of_str str_of_float str_of_int fs (csv args)
       = Raise e ->
       main float_of_str int_of_str str_of_float str_of_int args fs = Raise e
       /\ forall path : string,
            enrich_csv_with_fi float_of_str fs (csv args) path
            = Ok (to_csv fs path (enrich_frame float_of_str df)))
    /\
    (forall configs : list ThomasFlowerConfig,
       load_configs float_of_str int_of_str str_of_float str_of_int fs (csv args)
       = Ok configs ->
       List.length configs = List.length (data df)
       /\ main float_of_str int_of_str str_of_float str_of_int args fs
          = Ok {| files :=
                    match given (csv_out args) with
                    | Some path => to_csv fs path (enrich_frame float_of_str df)
                    | None => fs
                    end;
                  dumped :=
                    match given (json_out args) with
                    | Some path => Some (path, JList (map to_js_config configs))
                    | None => None
                    end |})
    /\ given None = None
    /\ given (Some EmptyString) = None.
Proof.
  intros fos ios sof soi args fs df Hdf.
  split; [ | split; [ | split; reflexivity]].
  - intros e Hload. split.
    + unfold main. now rewrite Hload.
    + intro path. unfold enrich_csv_with_fi, read_csv. now rewrite Hdf.
  - intros configs Hload. split.
    + pose proof Hload as Hrows. unfold load_configs, read_csv in Hrows.
      rewrite Hdf in Hrows. cbn [bind] in Hrows.
      apply load_rows_length in Hrows. unfold iterrows in Hrows.
      now rewrite length_map in Hrows.
    + now apply main_after_load.
Qed.

Lemma params_store_load_raises
  (float_of_str : string -> exc pyfloat) (int_of_str : string -> exc Z)
  (str_of_float : pyfloat -> string) (str_of_int : Z -> string) :
  load_configs float_of_str int_of_str str_of_float str_of_int
    params_store "params.csv" = Raise ValueError.
Proof.
  unfold load_configs, read_csv, params_store.
  cbn [String.eqb Ascii.eqb Bool.eqb bind].
  unfold iterrows, one_bad_row. cbn [columns data map].
  apply (LoaderFacts.load_rows_first_failure
           float_of_str int_of_str str_of_float str_of_int
           [combine csv_columns good_cells] _ [] [good_config] []).
  - constructor; [apply LoaderFacts.good_row_converts | constructor].
  - apply LoaderFacts.bad_row_raises.
Qed.

Lemma main_loads_before_writing_witness :
  main (fun _ => Raise ValueError) (fun _ => Raise ValueError)
       (fun _ => EmptyString) (fun _ => EmptyString)
       {| csv := "params.csv"; json_out := None; csv_out := Some "out.csv"%string |}
       params_store
  = Raise ValueError.
Proof.
  apply (proj1 (main_loads_before_writing
                  (fun _ => Raise ValueError) (fun _ => Raise ValueError)
                  (fun _ => EmptyString) (fun _ => EmptyString)
                  {| csv := "params.csv"; json_out := None;
                     csv_out := Some "out.csv"%string |}
                  params_store one_bad_row eq_refl)).
  apply params_store_load_raises.
Defined.

End CliFacts.

(** ** Enriching twice *)

Module EnrichAgainFacts.
Import Interface EnrichFacts.

Lemma combine_app_aligned (cols more : list string) (cells extra : list cell) :
  List.length cells = List.length cols ->
  combine (cols ++ more) (cells ++ extra)
  = combine cols cells ++ combine more extra.
Proof.
  revert cells. induction cols as [| k cols IH]; intros [| c cells] Hlen;
    try discriminate; [reflexivity | ].
  cbn [app combine]. f_equal. apply IH. now injection Hlen.
Qed.

Lemma index_of_app_absent (key : string) (cols more : list string) :
  ~ In key cols ->
  index_of key (cols ++ more)
  = option_map (Nat.add (List.length cols)) (index_of key more).
Proof.
  induction cols as [| k cols IH]; intro Hnot.
  - cbn [app List.length]. destruct (index_of key more); reflexivity.
  - cbn [app index_of List.length].
    destruct (String.eqb_spec k key) as [-> | _].
    + exfalso. apply Hnot. now left.
    + rewrite IH by (intro H; apply Hnot; now right).
      destruct (index_of key more); reflexivity.
Qed.

Lemma replace_nth_app {A : Type} (l rest : list A) (i : nat) (v : A) :
  replace_nth (List.length l + i) v (l ++ rest) = l ++ replace_nth i v rest.
Proof.
  induction l as [| a l IH]; [reflexivity | ].
  cbn [List.length Nat.add app replace_nth]. now rewrite IH.
Qed.

Section Again.

Variable float_of_str : string -> exc pyfloat.

Let _fi := _fi float_of_str.
Let _delta := _delta float_of_str.
Let enrich_frame := enrich_frame float_of_str.
Let fi_cell := fi_cell float_of_str.
Let delta_cell := delta_cell float_of_str.

(** A row of an enriched table: the input cells and the two computed ones. *)
Let enriched_row (cols : list string) (cells : list cell) : list cell :=
  cells ++ [CFloat (fi_cell cols cells); CFloat (delta_cell cols cells)].

Let enriched_cols (cols : list string) : list string :=
  cols ++ ["FI_computed"; "FI_delta"]%string.

Lemma _fi_enriched_row (cols : list string) (cells : list cell) :
  List.length cells = List.length cols ->
  _fi (combine (enriched_cols cols) (enriched_row cols cells))
  = fi_cell cols cells.
Proof.
  intro Hlen. unfold enriched_cols, enriched_row.
  rewrite combine_app_aligned by assumption.
  unfold fi_cell, Interface.fi_cell, _fi, Interface._fi, row_getitem.
  rewrite !assoc_app. cbn [combine assoc String.eqb Ascii.eqb Bool.eqb].
  destruct (assoc "E_flower" (combine cols cells)) as [cE | ]; [ | reflexivity].
  cbn [bind].
  destruct (py_float float_of_str (Some cE)) as [E | ]; [ | reflexivity].
  cbn [bind].
  destruct (assoc "lambda_max" (combine cols cells)); reflexivity.
Qed.

Lemma _delta_enriched_row (cols : list string) (cells : list cell) :
  List.length cells = List.length cols ->
  ~ In "FI_computed"%string cols ->
  _delta (combine (enriched_cols cols) (enriched_row cols cells))
  = delta_cell cols cells.
Proof.
  intros Hlen Hc. unfold enriched_cols, enriched_row.
  rewrite combine_app_aligned by assumption.
  unfold delta_cell, Interface.delta_cell, delta_of, row_get,
    _delta, Interface._delta, row_getitem.
  rewrite !assoc_app, (assoc_combine_absent "FI_computed" cols cells Hc).
  cbn [combine assoc String.eqb Ascii.eqb Bool.eqb].
  destruct (assoc "FI_reported" (combine cols cells)) as [c | ]; [ | reflexivity].
  cbn [bind].
  destruct (py_float float_of_str (Some c)) as [r | ]; reflexivity.
Qed.

Lemma enrich_frame_again (df : DataFrame) :
  aligned df ->
  ~ In "FI_computed"%string (columns df) ->
  ~ In "FI_delta"%string (columns df) ->
  enrich_frame (enrich_frame df) = enrich_frame df.
Proof.
  intros Hal Hc Hd.
  unfold enrich_frame at 2 3. rewrite (enrich_frame_fresh float_of_str df Hal Hc Hd).
  destruct df as [cols rows]. unfold aligned in Hal. cbn [columns data] in *.
  fold fi_cell delta_cell. fold (enriched_cols cols).
  change (map (fun cells =>
                 cells ++ [CFloat (fi_cell cols cells);
                           CFloat (delta_cell cols cells)]) rows)
    with (map (enriched_row cols) rows).
  assert (Hi1 : index_of "FI_computed" (enriched_cols cols)
                = Some (List.length cols + 0)%nat).
  { unfold enriched_cols. now rewrite index_of_app_absent. }
  assert (Hi2 : index_of "FI_delta" (enriched_cols cols)
                = Some (List.length cols + 1)%nat).
  { unfold enriched_cols. now rewrite index_of_app_absent. }
  assert (Hstep1 :
            set_column {| columns := enriched_cols cols;
                          data := map (enriched_row cols) rows |}
              "FI_computed"
              (apply_rows _fi {| columns := enriched_cols cols;
                                 data := map (enriched_row cols) rows |})
            = {| columns := enriched_cols cols;
                 data := map (enriched_row cols) rows |}).
  { unfold set_column, apply_rows, iterrows. cbn [columns data].
    rewrite Hi1. f_equal.
    rewrite map_map, zip_with_map_r, map_map.
    apply map_ext_in. intros cells Hin.
    rewrite Forall_forall in Hal. specialize (Hal cells Hin).
    rewrite (_fi_enriched_row cols cells Hal).
    unfold enriched_row. rewrite <- Hal, replace_nth_app. reflexivity. }
  unfold enrich_frame, Interface.enrich_frame. fold _fi _delta.
  rewrite Hstep1.
  unfold set_column, apply_rows, iterrows. cbn [columns data].
  rewrite Hi2. f_equal.
  rewrite map_map, zip_with_map_r, map_map.
  apply map_ext_in. intros cells Hin.
  rewrite Forall_forall in Hal. specialize (Hal cells Hin).
  rewrite (_delta_enriched_row cols cells Hal Hc).
  unfold enriched_row. rewrite <- Hal, replace_nth_app. reflexivity.
Qed.

End Again.

(** X12.  Enrichment is idempotent: enriching a table that enrichment
    produced (from an input without FI_computed and FI_delta columns) gives
    the same table again, the second pass overwriting the two columns with
    the values they already hold; so enriching a file in place twice leaves
    what the first pass wrote. *)
Theorem enrich_twice :
  forall (float_of_str : string -> exc pyfloat) (df : DataFrame),
    aligned df ->
    ~ In "FI_computed"%string (columns df) ->
    ~ In "FI_delta"%string (columns df) ->
    enrich_frame float_of_str (enrich_frame float_of_str df)
    = enrich_frame float_of_str df
    /\ forall (fs : store) (path : string),
         fs path = Some df ->
         exists fs1 fs2 : store,
           enrich_csv_with_fi float_of_str fs path path = Ok fs1
           /\ enrich_csv_with_fi float_of_str fs1 path path = Ok fs2
           /\ forall p : string, fs2 p = fs1 p.
Proof.
  intros fos df Hal Hc Hd.
  pose proof (enrich_frame_again fos df Hal Hc Hd) as Hagain.
  split; [exact Hagain | ].
  intros fs path Hdf.
  exists (to_csv fs path (enrich_frame fos df)).
  exists (to_csv (to_csv fs path (enrich_frame fos df)) path
            (enrich_frame fos (enrich_frame fos df))).
  split; [unfold enrich_csv_with_fi, read_csv; now rewrite Hdf | ].
  split.
  - unfold enrich_csv_with_fi, read_csv. unfold to_csv at 1.
    now rewrite String.eqb_refl.
  - intro p. rewrite Hagain. unfold to_csv.
    destruct (String.eqb p path); reflexivity.
Qed.

Lemma enrich_twice_witness :
  enrich_frame (fun _ => Raise ValueError)
    (enrich_frame (fun _ => Raise ValueError) plain_table)
  = enrich_frame (fun _ => Raise ValueError) plain_table.
Proof.
  apply (enrich_twice (fun _ => Raise ValueError) plain_table).
  - repeat constructor.
  - cbn. intuition discriminate.
  - cbn. intuition discriminate.
Defined.

End EnrichAgainFacts.

(** ** Rows and columns under enrichment; optional metrics *)

Module TableFacts.
Import Interface.

Lemma index_of_Some_In (key : string) (cols : list string) (i : nat) :
  index_of key cols = Some i -> In key cols.
Proof.
  revert i. induction cols as [| k cols IH]; intros i H; [discriminate | ].
  cbn [index_of] in H. destruct (String.eqb_spec k key) as [-> | _].
  - now left.
  - right. destruct (index_of key cols) as [j | ]; [ | discriminate].
    now apply (IH j).
Qed.

Lemma set_column_shape (df : DataFrame) (key : string) (f : Row -> pyfloat) :
  let out := set_column df key (apply_rows f df) in
  List.length (data out) = List.length (data df)
  /\ incl (columns df) (columns out)
  /\ In key (columns out).
Proof.
  cbv zeta. unfold set_column, apply_rows, iterrows.
  destruct (index_of key (columns df)) as [i | ] eqn:Hi; cbn [columns data];
    rewrite map_map, zip_with_map_r, length_map.
  - split; [reflexivity | ]. split; [apply incl_refl | ].
    now apply (index_of_Some_In key _ i).
  - split; [reflexivity | ]. split; [apply incl_appl, incl_refl | ].
    apply in_or_app. right. now left.
Qed.

(** X15.  Whatever columns the input table has, enrichment returns a table
    with the same number of rows in which every input column is still
    present, together with columns FI_computed and FI_delta. *)
Theorem enrich_keeps_rows_and_columns :
  forall (float_of_str : string -> exc pyfloat) (df : DataFrame),
    let out := enrich_frame float_of_str df in
    List.length (data out) = List.length (data df)
    /\ incl (columns df) (columns out)
    /\ In "FI_computed"%string (columns out)
    /\ In "FI_delta"%string (columns out).
Proof.
  intros fos df. cbv zeta. unfold enrich_frame.
  pose proof (set_column_shape df "FI_computed" (_fi fos)) as H1.
  cbv zeta in H1. destruct H1 as (Hlen1 & Hincl1 & Hin1).
  set (df1 := set_column df "FI_computed" (apply_rows (_fi fos) df)) in *.
  pose proof (set_column_shape df1 "FI_delta" (_delta fos)) as H2.
  cbv zeta in H2. destruct H2 as (Hlen2 & Hincl2 & Hin2).
  split; [now rewrite Hlen2 | ].
  split; [intros c Hc; apply Hincl2, Hincl1, Hc | ].
  split; [apply Hincl2, Hin1 | exact Hin2].
Qed.

(** X14.  Optional metrics: when a row loads and its E_flower or lambda_max
    cell is empty or its column is absent, the loaded configuration holds
    [None] for that metric, its Flower Index is not-a-number, and the
    exported record carries a null for the metric. *)
Theorem empty_metric_loads_as_none :
  forall float_of_str int_of_str str_of_float str_of_int
         (row : Row) (cfg : ThomasFlowerConfig),
    row_to_config float_of_str int_of_str str_of_float str_of_int row = Ok cfg ->
    (pd_isna (row_get row "E_flower") = true ->
     E_flower cfg = None
     /\ compute_fi cfg = NaN
     /\ json_get2 "metrics" "E_flower" (to_js_config cfg) = Some JNull)
    /\
    (pd_isna (row_get row "lambda_max") = true ->
     lambda_max cfg = None
     /\ compute_fi cfg = NaN
     /\ json_get2 "metrics" "lambda_max" (to_js_config cfg) = Some JNull).
Proof.
  intros fos ios sof soi row cfg H.
  destruct (CliFacts.row_to_config_metrics fos ios sof soi row cfg H) as [HE HL].
  unfold optional_float in HE, HL. split; intro Hna.
  - rewrite Hna in HE. cbn [negb] in HE. injection HE as HE.
    unfold compute_fi, json_get2. cbn [to_js_config json_get assoc String.eqb Ascii.eqb Bool.eqb].
    rewrite <- HE. repeat split; reflexivity.
  - rewrite Hna in HL. cbn [negb] in HL. injection HL as HL.
    unfold compute_fi, json_get2. cbn [to_js_config json_get assoc String.eqb Ascii.eqb Bool.eqb].
    rewrite <- HL. repeat split; try reflexivity.
    apply InterfaceFacts.flower_index_None_r.
Qed.

Lemma empty_metric_loads_as_none_witness :
  E_flower sparse_config = None
  /\ compute_fi sparse_config = NaN
  /\ json_get2 "metrics" "E_flower" (to_js_config sparse_config) = Some JNull.
Proof.
  apply (proj1 (empty_metric_loads_as_none
                  (fun _ => Raise ValueError) (fun _ => Raise ValueError)
                  (fun _ => EmptyString) (fun _ => EmptyString)
                  (combine csv_columns sparse_cells) sparse_config eq_refl)).
  reflexivity.
Defined.

End TableFacts.
